(** * A shallow embedding of metisoft-database-util

    This development models the modules [src/src/DatabaseConnection.js] and
    [src/src/databaseUtil.js].  The node-postgres pool and clients, the
    console and the configuration loader are external collaborators: they are
    represented by records of functions ([driver], a config loader), so that
    every theorem holds for all of their behaviours.

    Asynchronous code (Bluebird promise chains) is modelled as a state and
    error monad: a promise chain runs to completion in program order, its
    rejection is an [Err] outcome, and the observable side effects (pool
    acquisitions, client queries, releases, console output, the moment the
    outer promise settles) are appended to an event trace. *)

From stdpp Require Import base list gmap sets strings.
From Stdlib Require Import Strings.String Strings.Ascii ZArith Lia.



(* ------------------------------------------------------------------ *)
(** ** JavaScript values, rows and query results *)

Inductive jval : Type :=
| JUndefined
| JNull
| JBool (b : bool)
| JNum (n : Z)
| JStr (s : string).

(** A row is a mapping from column names to values; [[]] is the object [{}]. *)
Definition row : Type := list (string * jval).

(** A node-postgres query result: the [rows] field, when the object has one,
    and the remaining driver metadata (here the [command] tag). *)
Record query_result : Type := mk_query_result {
  qr_rows : option (list row);
  qr_command : string
}.

(** The values a query promise of this module can resolve to: [undefined],
    a literal array (the [Promise.resolve([])] of [__DI_squelQuery]) or a
    driver result object. *)
Inductive query_value : Type :=
| QVUndefined
| QVArray (a : list row)
| QVResult (r : query_result).

(** An [Error] object: its message and the [__errors] property that
    [runBasicService] attaches to validation errors. *)
Record js_error : Type := mk_error {
  err_message : string;
  err_errors : option (list string)
}.

Definition type_error : js_error := mk_error "TypeError" None.

(* ------------------------------------------------------------------ *)
(** ** Result projection ([turnQueryResultIntoRows], [turnRowsIntoSingleResult]) *)

Module Projector.

(** [_.has(queryResult, 'rows')]: only a result object can own [rows]. *)
Definition turnQueryResultIntoRows (queryResult : query_value) : list row :=
  match queryResult with
  | QVResult r =>
      match qr_rows r with
      | Some rows => rows
      | None => []
      end
  | QVArray _ => []
  | QVUndefined => []
  end.

(** [rows] is [None] for [null]/[undefined]; [{}] is the empty row. *)
Definition turnRowsIntoSingleResult (rows : option (list row)) : row :=
  match rows with
  | Some (r :: _) => r
  | _ => []
  end.

End Projector.

(* ------------------------------------------------------------------ *)
(** ** The promise/state monad of the query executor *)

Module Executor.

(** Pool clients are identified by a number. *)
Definition client : Type := nat.

Inductive outcome (A : Type) : Type :=
| Ok (a : A)
| Err (e : js_error).
Arguments Ok {A} a.
Arguments Err {A} e.

(** What the code writes to the console (the argument of each
    [console.log]/[console.error] call). *)
Inductive log_msg : Type :=
| LogExecuting (queryString : string)
| LogWithArgs (args : list jval)
| LogReturnedHeader
| LogReturned (r : query_result)
| LogError (e : js_error).

Inductive event : Type :=
| EvAcquire (c : client)
| EvQuery (c : client) (queryString : string) (args : list jval)
| EvRelease (c : client)
| EvLog (m : log_msg)
| EvSettled.

(** The external collaborators: what [pool.connect()] yields, what
    [client.query] calls back with, and whether a console call throws. *)
Record driver : Type := mk_driver {
  pool_connect : outcome client;
  client_query : client -> string -> list jval -> outcome query_result;
  console_throws : log_msg -> bool
}.

(** The state of one call: the event trace and the closure variable
    [client] of [__DI_simpleQuery]. *)
Record st : Type := mk_st {
  st_trace : list event;
  st_client : option client
}.

Definition init_st : st := mk_st [] None.

Definition P (A : Type) : Type := st -> outcome A * st.

Definition ret {A} (a : A) : P A := fun s => (Ok a, s).
Definition throw {A} (e : js_error) : P A := fun s => (Err e, s).

(** [p.then(f)] *)
Definition then_ {A B} (p : P A) (f : A -> P B) : P B := fun s =>
  match p s with
  | (Ok a, s') => f a s'
  | (Err e, s') => (Err e, s')
  end.

(** [p.catch(g)] *)
Definition catch_ {A} (p : P A) (g : js_error -> P A) : P A := fun s =>
  match p s with
  | (Ok a, s') => (Ok a, s')
  | (Err e, s') => g e s'
  end.

(** Bluebird's [p.finally(h)]: [h] runs on both outcomes; the outcome of
    [p] is kept unless [h] itself throws. *)
Definition finally_ {A} (p : P A) (h : P unit) : P A := fun s =>
  match p s with
  | (o, s') =>
      match h s' with
      | (Ok _, s'') => (o, s'')
      | (Err e, s'') => (Err e, s'')
      end
  end.

Notation "x <- p ;; k" := (then_ p (fun x => k))
  (at level 60, p at next level, right associativity).
Notation "p ;;; k" := (then_ p (fun _ : unit => k))
  (at level 60, right associativity).

Definition emit (ev : event) : P unit := fun s =>
  (Ok tt, mk_st (st_trace s ++ [ev]) (st_client s)).

Definition get_client : P (option client) := fun s => (Ok (st_client s), s).

Definition set_client (c : option client) : P unit := fun s =>
  (Ok tt, mk_st (st_trace s) c).

Definition when (b : bool) (p : P unit) : P unit :=
  if b then p else ret tt.

Section WithDriver.
Variable drv : driver.

(** A [console.log]/[console.error] call; it throws when the console
    does. *)
Definition log (m : log_msg) : P unit :=
  emit (EvLog m) ;;;
  if console_throws drv m then throw type_error else ret tt.

(** [pool.connect()] *)
Definition connect : P client :=
  match pool_connect drv with
  | Ok c => emit (EvAcquire c) ;;; ret c
  | Err e => throw e
  end.

(** [client.release()] *)
Definition release (c : client) : P unit := emit (EvRelease c).

(** [__makeClientQueryPromise(client, queryString, args)] *)
Definition __makeClientQueryPromise (c : client) (queryString : string)
    (args : list jval) : P query_result :=
  emit (EvQuery c queryString args) ;;;
  match client_query drv c queryString args with
  | Ok r => ret r
  | Err e => throw e
  end.

(** [__DI_simpleQuery(__pool, __config, queryString, args)]; [debug] is
    [__config.verbose || false] and [args = None] is a falsy [args]. *)
Definition __DI_simpleQuery (debug : bool) (queryString : string)
    (args : option (list jval)) : P query_result :=
  finally_
    (catch_
       (then_
          (c <- connect ;;
           set_client (Some c) ;;;
           when debug (log (LogExecuting queryString)) ;;;
           match args with
           | None => __makeClientQueryPromise c queryString []
           | Some a =>
               when debug (log (LogWithArgs a)) ;;;
               __makeClientQueryPromise c queryString a
           end)
          (fun result =>
             oc <- get_client ;;
             match oc with
             | Some c => release c
             | None => throw type_error
             end ;;;
             set_client None ;;;
             when debug (log LogReturnedHeader ;;; log (LogReturned result)) ;;;
             ret result))
       (fun err =>
          oc <- get_client ;;
          match oc with
          | Some c => release c ;;; set_client None
          | None => ret tt
          end ;;;
          when debug (log (LogError err)) ;;;
          throw err))
    (oc <- get_client ;;
     match oc with
     | Some c => release c
     | None => ret tt
     end).

(** [__DI_queryWithClient(__config, queryString, args, client)] *)
Definition __DI_queryWithClient (debug : bool) (queryString : string)
    (args : option (list jval)) (c : client) : P query_result :=
  catch_
    (then_
       (when debug (log (LogExecuting queryString)) ;;;
        match args with
        | None => __makeClientQueryPromise c queryString []
        | Some a =>
            when debug (log (LogWithArgs a)) ;;;
            __makeClientQueryPromise c queryString a
        end)
       (fun result =>
          when debug (log (LogReturned result)) ;;; ret result))
    (fun err => when debug (log (LogError err)) ;;; throw err).

(** [query(queryString, args, client)] through [__DI_query]: the
    client-scoped path when a client is given, the managed path
    otherwise. *)
Definition query (debug : bool) (queryString : string)
    (args : option (list jval)) (c : option client) : P query_result :=
  match c with
  | Some cl => __DI_queryWithClient debug queryString args cl
  | None => __DI_simpleQuery debug queryString args
  end.

(** [rollbackTransaction(client)]; the resolved value is [None] for the
    [undefined] that the [.catch] handler returns. *)
Definition rollbackTransaction (c : client) : P (option query_result) :=
  catch_
    (r <- __makeClientQueryPromise c "ROLLBACK" [] ;; ret (Some r))
    (fun _ => release c ;;; ret None).

(** [__DI_getClient(__pool, __connectionDetails)]: [pool.connect()]
    followed by [.then(function(client) { return client; })]. *)
Definition __DI_getClient : P client :=
  c <- connect ;; ret c.

(** [beginTransaction(client)] *)
Definition beginTransaction (c : client) : P query_result :=
  __makeClientQueryPromise c "BEGIN" [].

(** [commitTransaction(client)] *)
Definition commitTransaction (c : client) : P query_result :=
  __makeClientQueryPromise c "COMMIT" [].

End WithDriver.

(** [__DI_queryReturningMany(__fnQuery, queryString, args, client)]: the
    results object goes through [turnQueryResultIntoRows]. *)
Definition __DI_queryReturningMany
    (__fnQuery : string -> option (list jval) -> option client -> P query_result)
    (queryString : string) (args : option (list jval)) (c : option client)
    : P (list row) :=
  r <- __fnQuery queryString args c ;;
  ret (Projector.turnQueryResultIntoRows (QVResult r)).

(** [__DI_queryReturningOne(__fnQuery, queryString, args, client)]: the
    same chain followed by [turnRowsIntoSingleResult]. *)
Definition __DI_queryReturningOne
    (__fnQuery : string -> option (list jval) -> option client -> P query_result)
    (queryString : string) (args : option (list jval)) (c : option client)
    : P row :=
  rows <- (r <- __fnQuery queryString args c ;;
           ret (Projector.turnQueryResultIntoRows (QVResult r))) ;;
  ret (Projector.turnRowsIntoSingleResult (Some rows)).

(** [queryReturningMany(queryString, args, client)] *)
Definition queryReturningMany (drv : driver) (debug : bool) (queryString : string)
    (args : option (list jval)) (c : option client) : P (list row) :=
  __DI_queryReturningMany (query drv debug) queryString args c.

(** [queryReturningOne(queryString, args, client)] *)
Definition queryReturningOne (drv : driver) (debug : bool) (queryString : string)
    (args : option (list jval)) (c : option client) : P row :=
  __DI_queryReturningOne (query drv debug) queryString args c.

(** Running a call to the point where its promise settles. *)
Definition settle {A} (p : P A) (s : st) : outcome A * st :=
  match p s with
  | (o, s') => (o, mk_st (st_trace s' ++ [EvSettled]) (st_client s'))
  end.

Definition acquired (tr : list event) : list client :=
  omap (fun ev => match ev with EvAcquire c => Some c | _ => None end) tr.

Definition released (tr : list event) : list client :=
  omap (fun ev => match ev with EvRelease c => Some c | _ => None end) tr.


(** The events of a trace other than console output. *)
Definition non_log (tr : list event) : list event :=
  List.filter (fun ev => match ev with EvLog _ => false | _ => true end) tr.

(** A console none of whose calls throws. *)
Definition quiet_console (drv : driver) : Prop :=
  forall m, console_throws drv m = false.

(** A driver whose pool hands out client [7], whose statements all return
    an empty result set and whose console never throws. *)
Definition sample_driver : driver :=
  mk_driver (Ok 7) (fun _ _ _ => Ok (mk_query_result (Some []) "SELECT"))
    (fun _ => false).

End Executor.

(* ------------------------------------------------------------------ *)
(** ** The Squel adapter ([__DI_squelQuery] and its public wrappers) *)

Module SquelAdapter.
Import Executor.

(** The object returned by Squel's [.toParam()]: [text] and [values],
    each possibly absent ([None]). *)
Record squel_query : Type := mk_squel_query {
  sq_text : option string;
  sq_values : option (list jval)
}.

(** [__DI_squelQuery(__fnQuery, q, client)]: [!queryStr] holds for an
    absent text and for [""].  The promise returned by [__fnQuery] is
    returned as it is; [QVResult] only injects its result object into the
    type of JavaScript values. *)
Definition __DI_squelQuery
    (__fnQuery : string -> list jval -> option client -> P query_result)
    (q : squel_query) (c : option client) : P query_value :=
  let args := match sq_values q with Some a => a | None => [] end in
  match sq_text q with
  | None => ret (QVArray [])
  | Some queryStr =>
      if String.eqb queryStr "" then ret (QVArray [])
      else r <- __fnQuery queryStr args c ;; ret (QVResult r)
  end.

(** [squelQuery(q, client)] = [__DI_squelQuery(this.query, q, client)]. *)
Definition squelQuery (drv : driver) (debug : bool) (q : squel_query)
    (c : option client) : P query_value :=
  __DI_squelQuery (fun s a cl => query drv debug s (Some a) cl) q c.

Definition squelQueryReturningMany (drv : driver) (debug : bool)
    (q : squel_query) (c : option client) : P (list row) :=
  v <- squelQuery drv debug q c ;; ret (Projector.turnQueryResultIntoRows v).

Definition squelQueryReturningOne (drv : driver) (debug : bool)
    (q : squel_query) (c : option client) : P row :=
  rows <- squelQueryReturningMany drv debug q c ;;
  ret (Projector.turnRowsIntoSingleResult (Some rows)).

End SquelAdapter.

(* ------------------------------------------------------------------ *)
(** ** The basic service pipeline ([__DI_runBasicService]) *)

Module ServiceRunner.
Import Executor.

Section Runner.
(** The request, user data, client, Squel parameter object and query
    result types are opaque to the pipeline. *)
Variables (request user_data pclient squel_param result : Type).

(** Invocations of the injected functions, in the order they happen. *)
Inductive svc_event : Type :=
| CallValidate
| CallSanitize
| CallDbValidate
| CallMakeQuery
| CallQueryOne
| CallQueryMany.

(** What a call of [fnDbValidate] does: throw synchronously, return a
    value that has no callable [then] (calling [.then] on it throws a
    [TypeError]), or return a promise that settles with an outcome. *)
Inductive db_call : Type :=
| DbThrows (e : js_error)
| DbNotThenable
| DbPromise (o : outcome unit).

(** [runBasicServiceConfig].  [fnValidate req errorCodes] receives the
    current contents of the mutable [errorCodes] array and returns its
    boolean result together with the contents of the array after the
    call; a synchronous throw is [Err].  [fnDbValidate] is called outside
    any [.then], so what its call does is a [db_call].  [oneOrMany] is any JavaScript
    value.  [configWithDone] is [Some c] when [config.configWithDone]
    is set, [c] being its [client] property. *)
Record service_config : Type := mk_service_config {
  userData : user_data;
  req : request;
  errorCodeMap : list (string * string);
  fnValidate : request -> list string -> outcome (bool * list string);
  fnSanitizeRequest : option (request -> outcome request);
  fnDbValidate : option (user_data -> request -> option pclient -> db_call);
  fnMakeQuery : user_data -> request -> outcome squel_param;
  oneOrMany : jval;
  cfg_client : option pclient;
  configWithDone : option (option pclient)
}.

(** A call either throws synchronously or returns a promise that
    settles with an outcome. *)
Inductive svc_result : Type :=
| SyncThrow (e : js_error)
| Settled (o : outcome result).

Definition server_request_error : js_error :=
  mk_error "SERVER_REQUEST_ERROR" None.

Definition validation_error (errors : list string) : js_error :=
  mk_error "VALIDATION_ERROR" (Some errors).

(** The client the pipeline passes on: [config.client], else
    [config.configWithDone.client]. *)
Definition service_client (config : service_config) : option pclient :=
  match cfg_client config with
  | Some c => Some c
  | None =>
      match configWithDone config with
      | Some c => c
      | None => None
      end
  end.

Definition __DI_runBasicService (config : service_config)
    (__fnSquelQueryReturningOne __fnSquelQueryReturningMany :
       squel_param -> option pclient -> outcome result)
    : svc_result * list svc_event :=
  let errors : list string := [] in
  let client := service_client config in
  let fnQuery :=
    match oneOrMany config with
    | JStr s =>
        if String.eqb s "one" then Some (CallQueryOne, __fnSquelQueryReturningOne)
        else if String.eqb s "many" then Some (CallQueryMany, __fnSquelQueryReturningMany)
        else None
    | _ => None
    end in
  (* [fnDbValidate], or the no-op substitute that resolves at once *)
  let dbValidate (ud : user_data) (r : request) (c : option pclient)
      : db_call * list svc_event :=
    match fnDbValidate config with
    | Some f => (f ud r c, [CallDbValidate])
    | None => (DbPromise (Ok tt), [])
    end in
  match fnQuery with
  | None => (Settled (Err server_request_error), [])
  | Some (evQuery, fnQ) =>
      match fnValidate config (req config) errors with
      | Err e => (SyncThrow e, [CallValidate])
      | Ok (false, errors') =>
          (Settled (Err (validation_error errors')), [CallValidate])
      | Ok (true, _) =>
          let '(oreq, tr1) :=
            match fnSanitizeRequest config with
            | Some f => (f (req config), [CallSanitize])
            | None => (Ok (req config), [])
            end in
          match oreq with
          | Err e => (SyncThrow e, CallValidate :: tr1)
          | Ok req' =>
              let '(odb, tr2) := dbValidate (userData config) req' client in
              match odb with
              | DbThrows e => (SyncThrow e, CallValidate :: tr1 ++ tr2)
              | DbNotThenable => (SyncThrow type_error, CallValidate :: tr1 ++ tr2)
              | DbPromise (Err e) => (Settled (Err e), CallValidate :: tr1 ++ tr2)
              | DbPromise (Ok _) =>
                  match fnMakeQuery config (userData config) req' with
                  | Err e =>
                      (Settled (Err e), CallValidate :: tr1 ++ tr2 ++ [CallMakeQuery])
                  | Ok q =>
                      (Settled (fnQ q client),
                       CallValidate :: tr1 ++ tr2 ++ [CallMakeQuery; evQuery])
                  end
              end
          end
      end
  end.

(** The calls of the two execution functions in a trace. *)
Definition exec_calls (tr : list svc_event) : list svc_event :=
  List.filter (fun ev => match ev with
                         | CallQueryOne | CallQueryMany => true
                         | _ => false
                         end) tr.

(** The steps before execution all succeed and [fnMakeQuery] builds
    [q]: [fnValidate] returns [true], [fnSanitizeRequest] (when given)
    succeeds and [fnDbValidate] (when given) returns a promise that
    resolves. *)
Definition steps_succeed (config : service_config) (q : squel_param) : Prop :=
  (exists errs, fnValidate config (req config) [] = Ok (true, errs)) /\
  exists req',
    match fnSanitizeRequest config with
    | Some f => f (req config) = Ok req'
    | None => req' = req config
    end /\
    match fnDbValidate config with
    | Some f => f (userData config) req' (service_client config) = DbPromise (Ok tt)
    | None => True
    end /\
    fnMakeQuery config (userData config) req' = Ok q.

End Runner.

(** A configuration over unit types whose [fnValidate] pushes
    ["INVALID_REQUEST"] and fails unless [valid]. *)
Definition sample_service_config (mode : jval) (valid : bool)
    : service_config unit unit unit unit :=
  mk_service_config unit unit unit unit tt tt []
    (fun _ errs => if valid then Ok (true, errs) else Ok (false, errs ++ ["INVALID_REQUEST"]))
    None None (fun _ _ => Ok tt) mode None None.

(** The same configuration, valid, whose [fnMakeQuery] fails. *)
Definition failing_query_config : service_config unit unit unit unit :=
  mk_service_config unit unit unit unit tt tt []
    (fun _ errs => Ok (true, errs))
    None None (fun _ _ => Err (mk_error "BAD_QUERY" None)) (JStr "one") None None.

Arguments SyncThrow {result} e.
Arguments Settled {result} o.
Arguments __DI_runBasicService {request user_data pclient squel_param result}
  config _ _.
Arguments steps_succeed {_ _ _ _} config q.

End ServiceRunner.

(* ------------------------------------------------------------------ *)
(** ** The connection registry ([getConnection], [__startPool]) *)

Module Registry.
Import Executor.

Record connection_details : Type := mk_connection_details {
  host : string;
  port : Z;
  database : string;
  user : string;
  password : string;
  max : Z;
  idleTimeoutMillis : Z
}.

Record config_options : Type := mk_config_options { verbose : bool }.

(** A [ConnectionConfig]; [connection] is [None] when the object has no
    [connection] property. *)
Record connection_config : Type := mk_connection_config {
  config : config_options;
  connection : option connection_details
}.

(** A [DatabaseConnection] object: [__name], [__config] and [__pool]
    (the index of its pool among the pools created so far). *)
Record database_connection : Type := mk_database_connection {
  __name : string;
  __config : connection_config;
  __pool : option nat
}.

(** Values stored in [DatabaseConnection.__connections]: [__startPool]
    stores [{pool: pool}], [getConnection] the connection object. *)
Inductive reg_entry : Type :=
| RegPool (pool : nat)
| RegConnection (dbc : database_connection).

(** The process-wide state: the [__connections] object, given by its own
    properties (keyed by connection name) and its prototype ([None]
    standing for [Object.prototype], [Some e] for an object stored
    through the [__proto__] setter), and the [PgPool]s created so far,
    each with the name and details it was created for. *)
Record reg_state : Type := mk_reg_state {
  __connections : gmap string reg_entry;
  __connections_proto : option reg_entry;
  pools : list (string * connection_details)
}.

(** [__connections[name] = v] with an object [v]: an own property is
    written; otherwise the name ['__proto__'] reaches the setter of
    [Object.prototype], which replaces the prototype and creates no own
    property; any other name creates an own property. *)
Definition conn_set (name : string) (v : reg_entry) (s : reg_state) : reg_state :=
  match __connections s !! name with
  | Some _ => mk_reg_state (<[name := v]> (__connections s)) (__connections_proto s) (pools s)
  | None =>
      if String.eqb name "__proto__"
      then mk_reg_state (__connections s) (Some v) (pools s)
      else mk_reg_state (<[name := v]> (__connections s)) (__connections_proto s) (pools s)
  end.

(** [__connections[name]] right after an assignment to it: the own
    property, else for ['__proto__'] the prototype. *)
Definition conn_get (name : string) (s : reg_state) : option reg_entry :=
  match __connections s !! name with
  | Some e => Some e
  | None => if String.eqb name "__proto__" then __connections_proto s else None
  end.

(** [require(filename)] of a configuration module: [None] when it throws. *)
Definition config_loader : Type := string -> option connection_config.

(** The segments of a path, split at every ['/']. *)
Fixpoint split_slash_aux (cur : string) (p : string) : list string :=
  match p with
  | EmptyString => [cur]
  | String c rest =>
      if Ascii.eqb c "/" then cur :: split_slash_aux EmptyString rest
      else split_slash_aux (cur ++ String c EmptyString)%string rest
  end.

Definition split_slash (p : string) : list string := split_slash_aux EmptyString p.

(** The segment pass of [path.posix.normalize] ([normalizeString]), on a
    stack of the segments kept so far, last one first: empty and ['.']
    segments are skipped; ['..'] removes the last kept segment unless
    there is none or it is itself ['..'], in which case ['..'] is kept
    only when [allowAboveRoot] (a relative path). *)
Fixpoint normalize_segments (allowAboveRoot : bool) (stack : list string)
    (segs : list string) : list string :=
  match segs with
  | [] => stack
  | seg :: rest =>
      if String.eqb seg "" then normalize_segments allowAboveRoot stack rest
      else if String.eqb seg "." then normalize_segments allowAboveRoot stack rest
      else if String.eqb seg ".." then
        match stack with
        | top :: stack' =>
            if String.eqb top ".." then
              normalize_segments allowAboveRoot
                (if allowAboveRoot then ".." :: stack else stack) rest
            else normalize_segments allowAboveRoot stack' rest
        | [] =>
            normalize_segments allowAboveRoot
              (if allowAboveRoot then [".."] else []) rest
        end
      else normalize_segments allowAboveRoot (seg :: stack) rest
  end%string.

Fixpoint join_slash (segs : list string) : string :=
  match segs with
  | [] => EmptyString
  | [seg] => seg
  | seg :: rest => (seg ++ "/" ++ join_slash rest)%string
  end.

Definition last_char (p : string) : option ascii :=
  String.get (pred (String.length p)) p.

(** [path.posix.normalize(p)] *)
Definition normalize (p : string) : string :=
  match p with
  | EmptyString => "."
  | String c _ =>
      let isAbsolute := Ascii.eqb c "/" in
      let trailingSeparator :=
        match last_char p with Some c' => Ascii.eqb c' "/" | None => false end in
      let body := join_slash (rev (normalize_segments (negb isAbsolute) [] (split_slash p))) in
      match body with
      | EmptyString =>
          if isAbsolute then "/" else if trailingSeparator then "./" else "."
      | _ =>
          let body' := if trailingSeparator then (body ++ "/")%string else body in
          if isAbsolute then ("/" ++ body')%string else body'
      end
  end%string.

(** [path.posix.join(...parts)]: the non-empty parts joined with ['/'],
    then normalized; ['.'] when there is none. *)
Definition path_join (parts : list string) : string :=
  match List.filter (fun part => negb (String.eqb part "")) parts with
  | [] => "."
  | part :: rest => normalize (fold_left (fun acc a => acc ++ "/" ++ a) rest part)%string
  end.

(** The [filename] of [__loadConnectionConfigFromFile], [cwd] being
    [process.cwd()] and [name ++ ".js"] [sprintf('%s.js', name)]. *)
Definition config_filename (cwd name mode : string) : string :=
  if String.eqb mode "standalone"
  then path_join [cwd; "config"; (name ++ ".js")%string]
  else path_join [cwd; "node_modules"; "metisoft-databaseUtil"; "config"; (name ++ ".js")%string].

(** [__loadConnectionConfigFromFile(name, mode)] *)
Definition __loadConnectionConfigFromFile (load : config_loader) (cwd : string)
    (name mode : string) : outcome connection_config :=
  let filename := config_filename cwd name mode in
  match load filename with
  | Some cfg => Ok cfg
  | None => Err (mk_error ("Configuration file not found: " ++ filename)%string None)
  end.

(** [dbc.__startPool(name, connectionDetails)]: assigning the [Promise]
    property of an absent [connectionDetails] throws a [TypeError] before
    any pool exists; otherwise one [PgPool] is created, [dbc.__pool] is
    set and [{pool: pool}] is assigned to [__connections[name]]. *)
Definition __startPool (dbc : database_connection) (name : string)
    (connectionDetails : option connection_details) (s : reg_state)
    : outcome database_connection * reg_state :=
  match connectionDetails with
  | None => (Err type_error, s)
  | Some d =>
      let pool := List.length (pools s) in
      (Ok (mk_database_connection (__name dbc) (__config dbc) (Some pool)),
       conn_set name (RegPool pool)
         (mk_reg_state (__connections s) (__connections_proto s) (pools s ++ [(name, d)])))
  end.

  (** [if (!mode) mode = 'asDependency'] *)
Definition default_mode (mode : option string) : string :=
  match mode with
  | Some m => if String.eqb m "" then "asDependency" else m
  | None => "asDependency"
  end.

(** [DatabaseConnection.getConnection(name, mode, configOverride)]; the
    result is [__connections[name]], [None] standing for [undefined].
    [__connections.hasOwnProperty] is the method of [Object.prototype]
    unless a connection named ['hasOwnProperty'] is stored as an own
    property: calling that object throws a [TypeError]. *)
Definition getConnection (load : config_loader) (cwd : string) (name : string)
    (mode : option string) (configOverride : option connection_config)
    (s : reg_state) : outcome (option reg_entry) * reg_state :=
  let mode := default_mode mode in
  let created :=
    match __connections s !! "hasOwnProperty" with
    | Some _ => Err type_error
    | None =>
        match __connections s !! name with
        | Some _ => Ok s
        | None =>
            let cfg :=
              match configOverride with
              | Some c => Ok c
              | None => __loadConnectionConfigFromFile load cwd name mode
              end in
            match cfg with
            | Err e => Err e
            | Ok config =>
                let dbc := mk_database_connection name config None in
                match __startPool dbc name (connection config) s with
                | (Err e, _) => Err e
                | (Ok dbc', s') => Ok (conn_set name (RegConnection dbc') s')
                end
            end
        end
    end in
  match created with
  | Err e => (Err e, s)
  | Ok s' => (Ok (conn_get name s'), s')
  end.

(** Every registered name holds a connection object of that name whose
    pool was created for that name with that object's connection
    details. *)
Definition reg_inv (s : reg_state) : Prop :=
  forall n e, __connections s !! n = Some e ->
  exists dbc i d,
    e = RegConnection dbc /\ __name dbc = n /\ __pool dbc = Some i /\
    pools s !! i = Some (n, d) /\ connection (__config dbc) = Some d.

(** An empty registry and a sample configuration. *)
Definition empty_reg_state : reg_state := mk_reg_state ∅ None [].

Definition sample_details : connection_details :=
  mk_connection_details "localhost" 5432 "app" "app" "secret" 10 30000.

Definition sample_config : connection_config :=
  mk_connection_config (mk_config_options false) (Some sample_details).

(** A configuration object without a [connection] property. *)
Definition bare_config : connection_config :=
  mk_connection_config (mk_config_options false) None.

End Registry.

(* ------------------------------------------------------------------ *)
(** ** [databaseUtil]: name conversion and LIKE-prefix conditions *)

Module DbUtil.

Definition is_upper (c : ascii) : bool :=
  (65 <=? nat_of_ascii c) && (nat_of_ascii c <=? 90).

Definition is_digit (c : ascii) : bool :=
  (48 <=? nat_of_ascii c) && (nat_of_ascii c <=? 57).

(** [String.prototype.toLowerCase] on one ASCII character. *)
Definition toLowerCase (c : ascii) : ascii :=
  if is_upper c then ascii_of_nat (nat_of_ascii c + 32) else c.

(** [name.slice(n)] *)
Fixpoint str_drop (n : nat) (s : string) : string :=
  match n, s with
  | O, _ => s
  | S n', String _ s' => str_drop n' s'
  | S _, EmptyString => EmptyString
  end.

(** The index of the first character at position [lastIndex] or later
    that satisfies [p]: where a global single-class regular expression
    finds its next match. *)
Fixpoint regex_search (p : ascii -> bool) (s : string) (lastIndex : nat)
    : option nat :=
  match s with
  | EmptyString => None
  | String c s' =>
      match lastIndex with
      | O => if p c then Some 0 else option_map S (regex_search p s' 0)
      | S li => option_map S (regex_search p s' li)
      end
  end.

(** Length of the run of characters satisfying [p] at the start of [s]. *)
Fixpoint run_length (p : ascii -> bool) (s : string) : nat :=
  match s with
  | String c s' => if p c then S (run_length p s') else O
  | EmptyString => O
  end.

(** [spliceInUnderscore(index, regex)] of [jsName2SqlName], given the
    current [name] and [regex.lastIndex]; returns both after the call.
    [name[index]] always exists: [index] is a match index. *)
Definition spliceInUnderscore (index : nat) (name : string) (lastIndex : nat)
    : string * nat :=
  if Nat.eqb index 0 then (name, lastIndex)
  else
    match String.get index name with
    | Some ch =>
        ((substring 0 index name
           ++ String "_" (String (toLowerCase ch) (str_drop (S index) name)))%string,
         S lastIndex)
    | None => (name, lastIndex)
    end.

(** [while ((match = upperCaseRegex.exec(name)) !== null) ...] for
    [/[A-Z]/g]: a match at [index] sets [lastIndex] to [index + 1].  Each
    round lowers [length name - lastIndex], so [length name + 1] rounds
    reach the failing [exec]. *)
Fixpoint upperCaseLoop (fuel : nat) (name : string) (lastIndex : nat) : string :=
  match fuel with
  | O => name
  | S fuel' =>
      match regex_search is_upper name lastIndex with
      | None => name
      | Some index =>
          let '(name', lastIndex') := spliceInUnderscore index name (S index) in
          upperCaseLoop fuel' name' lastIndex'
      end
  end.

(** The same loop for [/[0-9][0-9]*/g]: a match at [index] spans the
    whole run of digits there. *)
Fixpoint numeralLoop (fuel : nat) (name : string) (lastIndex : nat) : string :=
  match fuel with
  | O => name
  | S fuel' =>
      match regex_search is_digit name lastIndex with
      | None => name
      | Some index =>
          let len := run_length is_digit (str_drop index name) in
          let '(name', lastIndex') := spliceInUnderscore index name (index + len) in
          numeralLoop fuel' name' lastIndex'
      end
  end.

(** [jsName2SqlName(name)] *)
Definition jsName2SqlName (name : string) : string :=
  let name1 := upperCaseLoop (S (String.length name)) name 0 in
  numeralLoop (S (String.length name1)) name1 0.

(** [String.prototype.toUpperCase] on one ASCII character. *)
Definition toUpperCase (c : ascii) : ascii :=
  if (97 <=? nat_of_ascii c) && (nat_of_ascii c <=? 122)
  then ascii_of_nat (nat_of_ascii c - 32) else c.

Definition is_underscore (c : ascii) : bool := Ascii.eqb c "_".

(** The [while ((match = underscoreRegex.exec(name)) !== null)] loop of
    [sqlName2JsName] for [/\_/g], with [name], [underscoreRegex.lastIndex]
    and [wordInitial] (kept from one round to the next).  A match at
    [underscoreIndex] sets [lastIndex] to [underscoreIndex + 1]; each round
    lowers [length name - lastIndex], so [length name + 1] rounds reach the
    failing [exec]. *)
Fixpoint underscoreLoop (fuel : nat) (name : string) (lastIndex : nat)
    (wordInitial : string) : string :=
  match fuel with
  | O => name
  | S fuel' =>
      match regex_search is_underscore name lastIndex with
      | None => name
      | Some underscoreIndex =>
          let wordInitial' :=
            if underscoreIndex + 1 <? String.length name then
              match String.get (underscoreIndex + 1) name with
              | Some ch => String (toUpperCase ch) EmptyString
              | None => wordInitial
              end
            else wordInitial in
          underscoreLoop fuel'
            (substring 0 underscoreIndex name ++ wordInitial'
               ++ str_drop (underscoreIndex + 2) name)%string
            (S underscoreIndex) wordInitial'
      end
  end.

(** [sqlName2JsName(name)] *)
Definition sqlName2JsName (name : string) : string :=
  underscoreLoop (S (String.length name)) name 0 "".

(** [str.replace(/c/g, '')] for a one-character pattern [c]. *)
Fixpoint removeAll (c : ascii) (str : string) : string :=
  match str with
  | EmptyString => EmptyString
  | String c' str' =>
      if Ascii.eqb c' c then removeAll c str' else String c' (removeAll c str')
  end.

(** [cleanStringForLike(str)] *)
Definition cleanStringForLike (str : jval) : string :=
  match str with
  | JStr s => removeAll "_" (removeAll "%" s)
  | _ => ""
  end.

(** [result[key] = value] on an object created as [{}], given by its own
    properties, with a string [value]: for the key ['__proto__'] the
    setter of [Object.prototype] ignores a primitive value, so nothing is
    stored; any other key creates or overwrites an own property. *)
Definition obj_set_string (key value : string) (result : gmap string string)
    : gmap string string :=
  if String.eqb key "__proto__" then result else <[key := value]> result.

(** [columnList2ColumnMap(columnList)]: [_.reduce] over the array, in
    order, into a fresh object. *)
Definition columnList2ColumnMap (columnList : list string) : gmap string string :=
  fold_left (fun result sqlName => obj_set_string sqlName (sqlName2JsName sqlName) result)
    columnList ∅.


(** The characters [cleanStringForLike] keeps. *)
Definition like_safe (x : ascii) : bool :=
  negb (Ascii.eqb x "%") && negb (Ascii.eqb x "_").


Definition digit_char (d : nat) : ascii := ascii_of_nat (48 + d).

Fixpoint string_of_uint (d : Decimal.uint) : string :=
  match d with
  | Decimal.Nil => EmptyString
  | Decimal.D0 d' => String (digit_char 0) (string_of_uint d')
  | Decimal.D1 d' => String (digit_char 1) (string_of_uint d')
  | Decimal.D2 d' => String (digit_char 2) (string_of_uint d')
  | Decimal.D3 d' => String (digit_char 3) (string_of_uint d')
  | Decimal.D4 d' => String (digit_char 4) (string_of_uint d')
  | Decimal.D5 d' => String (digit_char 5) (string_of_uint d')
  | Decimal.D6 d' => String (digit_char 6) (string_of_uint d')
  | Decimal.D7 d' => String (digit_char 7) (string_of_uint d')
  | Decimal.D8 d' => String (digit_char 8) (string_of_uint d')
  | Decimal.D9 d' => String (digit_char 9) (string_of_uint d')
  end.

(** sprintf's [%i] of a non-negative integer. *)
Definition string_of_nat (n : nat) : string := string_of_uint (Nat.to_uint n).

(** The double-quote character. *)
Definition dq : ascii := "034"%char.

(** [sprintf("\"%s\" LIKE $%i || '%%'", sqlField, argNumber)] *)
Definition like_condition (sqlField : string) (argNumber : nat) : string :=
  String dq (sqlField ++ String dq (" LIKE $" ++ string_of_nat argNumber ++ " || '%'"))%string.

(** Arrays live in a heap of cells addressed by [loc]; every allocated
    location is below [next_loc]. *)
Definition loc : Type := nat.

Record heap : Type := mk_heap {
  next_loc : loc;
  cells : gmap loc (list jval)
}.

Definition heap_wf (h : heap) : Prop :=
  forall l v, cells h !! l = Some v -> l < next_loc h.

(** An array literal or copy: a fresh cell. *)
Definition alloc (v : list jval) (h : heap) : loc * heap :=
  (next_loc h, mk_heap (S (next_loc h)) (<[next_loc h := v]> (cells h))).

(** [arr.push(v)]; the function only pushes onto arrays it allocated. *)
Definition push (l : loc) (v : jval) (h : heap) : heap :=
  match cells h !! l with
  | Some xs => mk_heap (next_loc h) (<[l := xs ++ [v]]> (cells h))
  | None => h
  end.

(** [_.cloneDeep(args)] for an array of primitive values: a fresh array
    with the same elements. *)
Definition cloneDeep (l : loc) (h : heap) : loc * heap :=
  alloc (default [] (cells h !! l)) h.

(** The return value [{conditions, args}]. *)
Record like_conditions : Type := mk_like_conditions {
  conditions : list string;
  args : loc
}.

(** The [_.forEach(criteria, ...)] loop over the entries of [criteria] in
    its enumeration order, with the closure variables [argNumber] and
    [conditions] and the array [args]. *)
Fixpoint forEachCriteria (criteria : list (string * jval)) (argNumber : nat)
    (conditions : list string) (args : loc) (h : heap) : list string * heap :=
  match criteria with
  | [] => (conditions, h)
  | (field, value) :: rest =>
      match value with
      | JStr _ =>
          let sqlField := jsName2SqlName field in
          let argNumber' := S argNumber in
          forEachCriteria rest argNumber'
            (conditions ++ [like_condition sqlField argNumber'])
            args (push args value h)
      | _ => forEachCriteria rest argNumber conditions args h
      end
  end.

(** [criteria[key]] on a plain object given by its own enumerable
    properties, in enumeration order ([Object.prototype] has none of the
    keys read here: ['length'] and array indices). *)
Fixpoint obj_get (o : list (string * jval)) (key : string) : jval :=
  match o with
  | [] => JUndefined
  | (k, v) :: rest => if String.eqb k key then v else obj_get rest key
  end.

(** lodash's [isLength(value)]: a non-negative integer up to
    [Number.MAX_SAFE_INTEGER]. *)
Definition isLength (v : jval) : bool :=
  match v with
  | JNum n => (0 <=? n)%Z && (n <=? 9007199254740991)%Z
  | _ => false
  end.


(** The [(key, value)] pairs [_.forEach(criteria, iteratee)] visits: an
    array-like object at the indices [0 .. length - 1], read with
    [criteria[index]]; any other object over its own enumerable keys.
    An index reaches [jsName2SqlName] as a number; its regular
    expressions and [sprintf]'s [%s] read it as its decimal string,
    which is the key given here. *)
Definition forEach_entries (o : list (string * jval)) : list (string * jval) :=
  match obj_get o "length" with
  | JNum n =>
      if isLength (JNum n)
      then map (fun i => (string_of_nat i, obj_get o (string_of_nat i))) (seq 0 (Z.to_nat n))
      else o
  | _ => o
  end.

(** [genWhereLikePrefixConditions(criteria, args)]; [args = None] is a
    falsy [args]. *)
Definition genWhereLikePrefixConditions (criteria : list (string * jval))
    (args : option loc) (h : heap) : like_conditions * heap :=
  let '(a, h1) :=
    match args with
    | None => alloc [] h
    | Some l => cloneDeep l h
    end in
  let argNumber := List.length (default [] (cells h1 !! a)) in
  let '(conds, h2) := forEachCriteria (forEach_entries criteria) argNumber [] a h1 in
  (mk_like_conditions conds a, h2).

(** The string values among the entries of [criteria], in order. *)
Definition string_values (criteria : list (string * jval)) : list jval :=
  omap (fun kv => match kv.2 with JStr v => Some (JStr v) | _ => None end) criteria.

(** The conditions as the documentation describes them: one per
    string-valued entry, on the SQL-style name of its key, numbered on
    from [n + 1]. *)
Fixpoint spec_like_conditions (criteria : list (string * jval)) (n : nat)
    : list string :=
  match criteria with
  | [] => []
  | (field, JStr _) :: rest =>
      like_condition (jsName2SqlName field) (S n) :: spec_like_conditions rest (S n)
  | _ :: rest => spec_like_conditions rest n
  end.

(** Camel case as the documentation of [sqlName2JsName] describes it:
    each [_] is dropped and the character after it upper-cased. *)
Fixpoint camel_of (s : string) : string :=
  match s with
  | EmptyString => EmptyString
  | String c rest =>
      if is_underscore c then
        match rest with
        | String c' rest' => String (toUpperCase c') (camel_of rest')
        | EmptyString => EmptyString
        end
      else String c (camel_of rest)
  end.

(** Every upper-case letter becomes [_] and its lower-case form. *)
Fixpoint snake_upper (s : string) : string :=
  match s with
  | EmptyString => EmptyString
  | String c rest =>
      if is_upper c then String "_" (String (toLowerCase c) (snake_upper rest))
      else String c (snake_upper rest)
  end.

(** A [_] before every run of digits that follows a non-digit;
    [prev_digit] tells whether the previous character is a digit. *)
Fixpoint snake_digits (prev_digit : bool) (s : string) : string :=
  match s with
  | EmptyString => EmptyString
  | String c rest =>
      if is_digit c then
        if prev_digit then String c (snake_digits true rest)
        else String "_" (String c (snake_digits true rest))
      else String c (snake_digits false rest)
  end.

(** Snake case: every upper-case letter but the first character becomes
    [_] and its lower-case form, then a [_] goes before every run of
    digits that follows a non-digit; the first character is left as it
    is in both passes. *)
Definition snake_of (s : string) : string :=
  let s1 := match s with
            | EmptyString => EmptyString
            | String c rest => String c (snake_upper rest)
            end in
  match s1 with
  | EmptyString => EmptyString
  | String c rest => String c (snake_digits (is_digit c) rest)
  end.

(** A heap holding one empty array, at location [0]. *)
Definition sample_heap : heap := mk_heap 1 {[0 := []]}.

End DbUtil.

(* ================================================================== *)
(** * Properties *)

(** ** Executor: helper lemmas *)

Lemma trace_split_settled (tr : list Executor.event) (ev : Executor.event) :
  ev ∈ tr -> exists pre post, tr ++ [Executor.EvSettled] = pre ++ ev :: post ++ [Executor.EvSettled].
Proof.
  intros Hin. apply list_elem_of_split in Hin as (pre & post & ->).
  exists pre, post. by rewrite <- app_assoc.
Qed.

Ltac run_promise :=
  repeat (simpl in *; unfold Executor.then_, Executor.catch_, Executor.finally_,
      Executor.emit, Executor.ret, Executor.throw, Executor.get_client,
      Executor.set_client, Executor.when, Executor.log, Executor.release,
      Executor.__makeClientQueryPromise, Executor.connect in *;
      simpl in *; try case_match; simplify_eq/=).

Lemma simpleQuery_lease (drv : Executor.driver) (debug : bool)
    (queryString : string) (args : option (list jval)) :
  let tr := Executor.st_trace
              (snd (Executor.__DI_simpleQuery drv debug queryString args Executor.init_st)) in
  match Executor.pool_connect drv with
  | Executor.Ok c =>
      Executor.acquired tr = [c] /\ Executor.released tr = [c] /\ Executor.EvRelease c ∈ tr
  | Executor.Err _ => Executor.acquired tr = [] /\ Executor.released tr = []
  end.
Proof.
  unfold Executor.__DI_simpleQuery, Executor.init_st.
  destruct (Executor.pool_connect drv) as [c|e] eqn:Hc; run_promise.
  all: repeat split; try reflexivity; set_solver.
Qed.

(** ** C1: the managed query path leases one client and releases it once *)

(** C1. [query] called without a client: when the pool hands out a client
    [c], exactly one client ([c]) is acquired and [c] is released exactly
    once, whatever the statement's outcome and whichever console call
    throws, and the release comes before the returned promise settles;
    when the pool fails to hand out a client, nothing is acquired or
    released. *)
Theorem managed_query_releases_once (drv : Executor.driver) (debug : bool)
    (queryString : string) (args : option (list jval)) :
  let '(_, s) := Executor.settle (Executor.query drv debug queryString args None)
                   Executor.init_st in
  match Executor.pool_connect drv with
  | Executor.Ok c =>
      Executor.acquired (Executor.st_trace s) = [c] /\
      Executor.released (Executor.st_trace s) = [c] /\
      exists pre post,
        Executor.st_trace s = pre ++ Executor.EvRelease c :: post ++ [Executor.EvSettled]
  | Executor.Err _ =>
      Executor.acquired (Executor.st_trace s) = [] /\
      Executor.released (Executor.st_trace s) = []
  end.
Proof.
  pose proof (simpleQuery_lease drv debug queryString args) as Hl. simpl in Hl.
  unfold Executor.settle, Executor.query.
  destruct (Executor.__DI_simpleQuery drv debug queryString args Executor.init_st)
    as [o s'] eqn:E.
  simpl in *. unfold Executor.acquired, Executor.released in *.
  rewrite !omap_app. simpl. rewrite !app_nil_r.
  destruct (Executor.pool_connect drv) as [c|e]; [|done].
  destruct Hl as (H1 & H2 & H3). repeat split; [done|done|].
  by apply trace_split_settled.
Qed.

(** ** C5: a failed ROLLBACK releases the client and is swallowed *)

(** C5. [rollbackTransaction(client)]: when the [ROLLBACK] statement fails,
    the client is released exactly once and the promise resolves (with
    [undefined]) instead of rejecting; when it succeeds, the promise
    resolves with its result and the client is not released. *)
Theorem rollback_failure_releases_client (drv : Executor.driver)
    (c : Executor.client) (s : Executor.st) :
  let '(o, s') := Executor.rollbackTransaction drv c s in
  match Executor.client_query drv c "ROLLBACK" [] with
  | Executor.Err _ =>
      o = Executor.Ok None /\
      Executor.released (Executor.st_trace s') =
        Executor.released (Executor.st_trace s) ++ [c]
  | Executor.Ok r =>
      o = Executor.Ok (Some r) /\
      Executor.released (Executor.st_trace s') = Executor.released (Executor.st_trace s)
  end.
Proof.
  unfold Executor.rollbackTransaction.
  destruct (Executor.client_query drv c "ROLLBACK" []) as [r|e] eqn:Hq;
    run_promise; unfold Executor.released; rewrite ?omap_app; simpl;
    rewrite ?app_nil_r; auto.
Qed.

(** ** C7: result projection *)

(** C7. [turnQueryResultIntoRows] gives [[]] for a value without a [rows]
    field and the [rows] field unchanged otherwise;
    [turnRowsIntoSingleResult] gives [{}] for [[]] and the first row of a
    non-empty row list. *)
Theorem projection_rules :
  (forall cmd, Projector.turnQueryResultIntoRows (QVResult (mk_query_result None cmd)) = []) /\
  Projector.turnQueryResultIntoRows QVUndefined = [] /\
  (forall a, Projector.turnQueryResultIntoRows (QVArray a) = []) /\
  (forall rows cmd,
     Projector.turnQueryResultIntoRows (QVResult (mk_query_result (Some rows) cmd)) = rows) /\
  Projector.turnRowsIntoSingleResult (Some []) = [] /\
  (forall r1 rest, Projector.turnRowsIntoSingleResult (Some (r1 :: rest)) = r1).
Proof. repeat split. Qed.

(** ** C4: the Squel adapter skips empty statements *)

(** C4. [__DI_squelQuery(__fnQuery, q, client)]: with an absent or empty
    [text] it resolves to [[]] and leaves the state untouched (no call,
    hence no database access); with a non-empty [text] it is exactly one
    call of [__fnQuery] on that text, the [values] ([[]] when absent) and
    the client.  For the public [squelQuery] an empty text produces no
    event at all. *)
Theorem squelQuery_empty_text_short_circuits :
  (forall (fnQuery : string -> list jval -> option Executor.client -> Executor.P query_result)
          (q : SquelAdapter.squel_query) (c : option Executor.client) (s : Executor.st),
     match SquelAdapter.sq_text q with
     | None => True
     | Some t => t = ""
     end ->
     SquelAdapter.__DI_squelQuery fnQuery q c s = (Executor.Ok (QVArray []), s)) /\
  (forall (fnQuery : string -> list jval -> option Executor.client -> Executor.P query_result)
          (q : SquelAdapter.squel_query) (c : option Executor.client) (t : string),
     SquelAdapter.sq_text q = Some t -> t <> "" ->
     SquelAdapter.__DI_squelQuery fnQuery q c =
       Executor.then_
         (fnQuery t (match SquelAdapter.sq_values q with Some a => a | None => [] end) c)
         (fun r => Executor.ret (QVResult r))) /\
  (forall drv debug (q : SquelAdapter.squel_query) c (s : Executor.st),
     match SquelAdapter.sq_text q with
     | None => True
     | Some t => t = ""
     end ->
     SquelAdapter.squelQuery drv debug q c s = (Executor.Ok (QVArray []), s)).
Proof.
  split; [|split].
  - intros fnQuery [[t|] vs] c s Ht; simpl in *; [subst t|]; reflexivity.
  - intros fnQuery [[t'|] vs] c t Ht Hne; simpl in *; [|discriminate].
    injection Ht as ->. unfold SquelAdapter.__DI_squelQuery; simpl.
    destruct (String.eqb_spec t "") as [->|_]; [done|]. reflexivity.
  - intros drv debug [[t|] vs] c s Ht; simpl in *; [subst t|]; reflexivity.
Qed.

(** ** C2: a failed validation rejects with the pushed error codes *)

(** C2 (counterexample).  With an unrecognised [oneOrMany] and an
    [fnValidate] that returns [false], [runBasicService] rejects with
    [SERVER_REQUEST_ERROR], not with a [VALIDATION_ERROR]: the mode check
    comes first. *)
Lemma runBasicService_validation_failure_bad_mode :
  let config := ServiceRunner.sample_service_config (JStr "other") false in
  ServiceRunner.fnValidate _ _ _ _ config (ServiceRunner.req _ _ _ _ config) [] =
    Executor.Ok (false, ["INVALID_REQUEST"]) /\
  fst (ServiceRunner.__DI_runBasicService config
         (fun _ _ => Executor.Ok tt) (fun _ _ => Executor.Ok tt)) =
    ServiceRunner.Settled (Executor.Err ServiceRunner.server_request_error) /\
  forall codes,
    fst (ServiceRunner.__DI_runBasicService config
           (fun _ _ => Executor.Ok tt) (fun _ _ => Executor.Ok tt)) <>
    ServiceRunner.Settled (Executor.Err (ServiceRunner.validation_error codes)).
Proof.
  simpl. split; [reflexivity|]. split; [reflexivity|].
  intros codes H. discriminate H.
Qed.

(** C2 (amended).  When [oneOrMany] is ['one'] or ['many'] and
    [fnValidate] returns [false] after pushing the codes [appended] onto the
    empty [errorCodes] array, [runBasicService] rejects with a
    [VALIDATION_ERROR] whose [__errors] are exactly [appended], and
    [fnValidate] is the only injected function it calls: no sanitization,
    no db-validation, no [fnMakeQuery], no execution.  With any other
    [oneOrMany] value the mode check fails first: the rejection is
    [SERVER_REQUEST_ERROR] and no injected function is called. *)
Theorem runBasicService_validation_failure
    {request user_data pclient squel_param result : Type}
    (config : ServiceRunner.service_config request user_data pclient squel_param)
    (fnOne fnMany : squel_param -> option pclient -> Executor.outcome result)
    (appended : list string) :
  ((ServiceRunner.oneOrMany _ _ _ _ config = JStr "one" \/
    ServiceRunner.oneOrMany _ _ _ _ config = JStr "many") ->
   ServiceRunner.fnValidate _ _ _ _ config (ServiceRunner.req _ _ _ _ config) [] =
     Executor.Ok (false, [] ++ appended) ->
   ServiceRunner.__DI_runBasicService config fnOne fnMany =
     (ServiceRunner.Settled (Executor.Err (ServiceRunner.validation_error appended)),
      [ServiceRunner.CallValidate])) /\
  (ServiceRunner.oneOrMany _ _ _ _ config <> JStr "one" ->
   ServiceRunner.oneOrMany _ _ _ _ config <> JStr "many" ->
   ServiceRunner.__DI_runBasicService config fnOne fnMany =
     (ServiceRunner.Settled (Executor.Err ServiceRunner.server_request_error), [])).
Proof.
  unfold ServiceRunner.__DI_runBasicService. split.
  - intros Hmode Hval.
    destruct Hmode as [Hm|Hm]; rewrite Hm; simpl; rewrite Hval; reflexivity.
  - intros Hone Hmany.
    destruct (ServiceRunner.oneOrMany _ _ _ _ config) as [| |b|z|m]; try reflexivity.
    destruct (String.eqb_spec m "one") as [->|_]; [done|].
    destruct (String.eqb_spec m "many") as [->|_]; [done|].
    reflexivity.
Qed.

Lemma runBasicService_validation_failure_witness :
  ServiceRunner.__DI_runBasicService (ServiceRunner.sample_service_config (JStr "one") false)
    (fun _ _ => Executor.Ok tt) (fun _ _ => Executor.Ok tt) =
  (ServiceRunner.Settled (Executor.Err (ServiceRunner.validation_error ["INVALID_REQUEST"])),
   [ServiceRunner.CallValidate]) /\
  ServiceRunner.__DI_runBasicService (ServiceRunner.sample_service_config (JStr "other") false)
    (fun _ _ => Executor.Ok tt) (fun _ _ => Executor.Ok tt) =
  (ServiceRunner.Settled (Executor.Err ServiceRunner.server_request_error), []).
Proof.
  split.
  - apply (runBasicService_validation_failure _ _ _ ["INVALID_REQUEST"]).
    + left. reflexivity.
    + reflexivity.
  - apply (runBasicService_validation_failure _ _ _ []); discriminate.
Defined.

(** ** C3: the mode selects the execution function *)

(** C3 (counterexample).  With [oneOrMany = 'one'] and a failing
    [fnValidate], the one-row execution function is not invoked at all. *)
Lemma runBasicService_one_mode_validation_fails :
  ServiceRunner.exec_calls
    (snd (ServiceRunner.__DI_runBasicService
            (ServiceRunner.sample_service_config (JStr "one") false)
            (fun _ _ => Executor.Ok tt) (fun _ _ => Executor.Ok tt))) = [].
Proof. reflexivity. Qed.

(** C3 (amended).  With [oneOrMany = 'one'] the many-row function is never
    invoked and the one-row function at most once; it is invoked exactly
    once, on the query [fnMakeQuery] built and the resolved client, and
    its outcome is the pipeline's, whenever the steps before execution
    succeed.  Symmetrically for ['many'].  Any other value of [oneOrMany]
    rejects with [SERVER_REQUEST_ERROR] and no injected function runs. *)
Theorem runBasicService_mode_dispatch
    {request user_data pclient squel_param result : Type}
    (config : ServiceRunner.service_config request user_data pclient squel_param)
    (fnOne fnMany : squel_param -> option pclient -> Executor.outcome result) :
  let '(res, tr) := ServiceRunner.__DI_runBasicService config fnOne fnMany in
  (ServiceRunner.oneOrMany _ _ _ _ config = JStr "one" ->
     (ServiceRunner.exec_calls tr = [] \/
      ServiceRunner.exec_calls tr = [ServiceRunner.CallQueryOne]) /\
     (forall q, ServiceRunner.steps_succeed config q ->
        ServiceRunner.exec_calls tr = [ServiceRunner.CallQueryOne] /\
        res = ServiceRunner.Settled (fnOne q (ServiceRunner.service_client _ _ _ _ config)))) /\
  (ServiceRunner.oneOrMany _ _ _ _ config = JStr "many" ->
     (ServiceRunner.exec_calls tr = [] \/
      ServiceRunner.exec_calls tr = [ServiceRunner.CallQueryMany]) /\
     (forall q, ServiceRunner.steps_succeed config q ->
        ServiceRunner.exec_calls tr = [ServiceRunner.CallQueryMany] /\
        res = ServiceRunner.Settled (fnMany q (ServiceRunner.service_client _ _ _ _ config)))) /\
  (ServiceRunner.oneOrMany _ _ _ _ config <> JStr "one" ->
   ServiceRunner.oneOrMany _ _ _ _ config <> JStr "many" ->
     res = ServiceRunner.Settled (Executor.Err ServiceRunner.server_request_error) /\
     tr = []).
Proof.
  unfold ServiceRunner.__DI_runBasicService, ServiceRunner.steps_succeed.
  destruct config as [ud rq ecm fv fs fd fm mode cl cwd]; simpl.
  remember (ServiceRunner.service_client _ _ _ _ _) as client eqn:Hcl. clear Hcl.
  destruct mode as [| | | |s]; simpl.
  all: try (split; [intros; discriminate|split; [intros; discriminate|done]]).
  destruct (String.eqb_spec s "one") as [->|Hone];
    [|destruct (String.eqb_spec s "many") as [->|Hmany]]; simpl.
  3: { split; [intros [=]; done|split; [intros [=]; done|done]]. }
  all: repeat (case_match; simpl); simplify_eq/=.
  all: split; [intros Hm1|split; [intros Hm2|intros Hn1 Hn2]].
  all: try discriminate.
  all: try (exfalso; congruence).
  all: split; [first [by left|by right]|].
  all: intros q ([errs' Hv] & rq' & Hs & Hd & Hmk).
  all: first [split; [reflexivity|congruence] | exfalso; congruence].
Qed.

Lemma runBasicService_mode_dispatch_witness :
  ServiceRunner.steps_succeed (ServiceRunner.sample_service_config (JStr "one") true) tt /\
  ServiceRunner.exec_calls
    (snd (ServiceRunner.__DI_runBasicService
            (ServiceRunner.sample_service_config (JStr "one") true)
            (fun _ _ => Executor.Ok tt) (fun _ _ => Executor.Ok tt))) =
    [ServiceRunner.CallQueryOne].
Proof.
  assert (Hs : ServiceRunner.steps_succeed
                 (ServiceRunner.sample_service_config (JStr "one") true) tt).
  { split; [eexists; reflexivity|]. exists tt. repeat split. }
  split; [exact Hs|].
  pose proof (runBasicService_mode_dispatch
                (ServiceRunner.sample_service_config (JStr "one") true)
                (fun _ _ => Executor.Ok tt) (fun _ _ => Executor.Ok tt)) as H.
  simpl in H. destruct H as [H1 _].
  destruct (H1 eq_refl) as [_ H2].
  destruct (H2 tt Hs) as [H3 _].
  exact H3.
Defined.

(** ** C6: one connection object and one pool per name *)

Lemma conn_set_own (name : string) (v : Registry.reg_entry) (s : Registry.reg_state) :
  name <> "__proto__"%string \/ Registry.__connections s !! name <> None ->
  Registry.conn_set name v s =
  Registry.mk_reg_state (<[name := v]> (Registry.__connections s))
    (Registry.__connections_proto s) (Registry.pools s).
Proof.
  intros H. unfold Registry.conn_set.
  destruct (Registry.__connections s !! name) eqn:E; [done|].
  destruct (String.eqb_spec name "__proto__"); [|done].
  destruct H as [H|H]; [done|]. by destruct H.
Qed.

Lemma conn_set_proto (v : Registry.reg_entry) (s : Registry.reg_state) :
  Registry.__connections s !! "__proto__" = None ->
  Registry.conn_set "__proto__" v s =
  Registry.mk_reg_state (Registry.__connections s) (Some v) (Registry.pools s).
Proof. intros H. unfold Registry.conn_set. by rewrite H. Qed.









(** ** databaseUtil: the [_.forEach] loop *)

Lemma forEachCriteria_spec (criteria : list (string * jval)) :
  forall (n : nat) (conds : list string) (a : DbUtil.loc) (h : DbUtil.heap) (xs : list jval),
    DbUtil.cells h !! a = Some xs ->
    let '(conds', h') := DbUtil.forEachCriteria criteria n conds a h in
    conds' = conds ++ DbUtil.spec_like_conditions criteria n /\
    DbUtil.cells h' !! a = Some (xs ++ DbUtil.string_values criteria) /\
    (forall l, l <> a -> DbUtil.cells h' !! l = DbUtil.cells h !! l) /\
    DbUtil.next_loc h' = DbUtil.next_loc h.
Proof.
  induction criteria as [|[field value] rest IH]; intros n conds a h xs Ha; simpl.
  - by rewrite !app_nil_r.
  - destruct value as [| | | |v]; simpl; try by apply IH.
    unfold DbUtil.push at 1. rewrite Ha.
    specialize (IH (S n) (conds ++ [DbUtil.like_condition (DbUtil.jsName2SqlName field) (S n)])
                   a (DbUtil.mk_heap (DbUtil.next_loc h) (<[a:=xs ++ [JStr v]]> (DbUtil.cells h)))
                   (xs ++ [JStr v])).
    simpl in IH. rewrite lookup_insert_eq in IH.
    destruct (DbUtil.forEachCriteria rest _ _ _ _) as [conds' h'].
    destruct (IH eq_refl) as (H1 & H2 & H3 & H4).
    split; [by rewrite H1, <- app_assoc|].
    split; [by rewrite H2, <- app_assoc|].
    split; [|done].
    intros l Hl. rewrite H3 by done. simpl. by rewrite lookup_insert_ne by congruence.
Qed.

Lemma genWhereLikePrefixConditions_spec (criteria : list (string * jval))
    (args : option DbUtil.loc) (h : DbUtil.heap) (xs : list jval) :
  match args with
  | None => xs = []
  | Some l => DbUtil.cells h !! l = Some xs
  end ->
  let '(res, h') := DbUtil.genWhereLikePrefixConditions criteria args h in
  DbUtil.conditions res =
    DbUtil.spec_like_conditions (DbUtil.forEach_entries criteria) (List.length xs) /\
  DbUtil.args res = DbUtil.next_loc h /\
  DbUtil.cells h' !! DbUtil.args res =
    Some (xs ++ DbUtil.string_values (DbUtil.forEach_entries criteria)) /\
  (forall l, l <> DbUtil.next_loc h -> DbUtil.cells h' !! l = DbUtil.cells h !! l).
Proof.
  intros Hargs. unfold DbUtil.genWhereLikePrefixConditions.
  assert (Halloc : (match args with
                    | None => DbUtil.alloc [] h
                    | Some l => DbUtil.cloneDeep l h
                    end) = DbUtil.alloc xs h).
  { destruct args as [l|]; [|by subst]. unfold DbUtil.cloneDeep. by rewrite Hargs. }
  rewrite Halloc. unfold DbUtil.alloc. simpl. rewrite lookup_insert_eq. simpl.
  pose proof (forEachCriteria_spec (DbUtil.forEach_entries criteria) (List.length xs) []
                (DbUtil.next_loc h)
                (DbUtil.mk_heap (S (DbUtil.next_loc h))
                   (<[DbUtil.next_loc h:=xs]> (DbUtil.cells h))) xs) as H.
  simpl in H. rewrite lookup_insert_eq in H.
  destruct (DbUtil.forEachCriteria _ _ _ _ _) as [conds h'].
  destruct (H eq_refl) as (H1 & H2 & H3 & _). simpl.
  split; [done|]. split; [done|]. split; [done|].
  intros l Hl. rewrite H3 by done. simpl. by rewrite lookup_insert_ne by congruence.
Qed.


(** ** C8: the LIKE-prefix conditions *)




(** ** C9: non-string criteria are skipped *)




(** ** C10: the caller's [args] array is not mutated *)

(** C10.  For an [args] array at location [l] of a well-formed heap,
    [genWhereLikePrefixConditions] returns a different, freshly allocated
    array holding the elements of [args] followed by the new values, and
    leaves the array at [l], like every other pre-existing array,
    unchanged. *)
Theorem genWhereLikePrefixConditions_args_unchanged
    (criteria : list (string * jval)) (l : DbUtil.loc) (h : DbUtil.heap) (xs : list jval) :
  DbUtil.heap_wf h ->
  DbUtil.cells h !! l = Some xs ->
  let '(res, h') := DbUtil.genWhereLikePrefixConditions criteria (Some l) h in
  DbUtil.cells h' !! l = Some xs /\
  DbUtil.args res <> l /\
  DbUtil.cells h !! DbUtil.args res = None /\
  (exists appended, DbUtil.cells h' !! DbUtil.args res = Some (xs ++ appended)) /\
  (forall l', l' <> DbUtil.args res -> DbUtil.cells h' !! l' = DbUtil.cells h !! l').
Proof.
  intros Hwf Hl.
  pose proof (genWhereLikePrefixConditions_spec criteria (Some l) h xs Hl) as H.
  destruct (DbUtil.genWhereLikePrefixConditions criteria (Some l) h) as [res h'].
  destruct H as (H1 & H2 & H3 & H4).
  assert (Hlt : l < DbUtil.next_loc h) by (eapply Hwf; eauto).
  assert (Hfresh : DbUtil.cells h !! DbUtil.next_loc h = None).
  { destruct (DbUtil.cells h !! DbUtil.next_loc h) eqn:E; [|done].
    apply Hwf in E. lia. }
  rewrite H2 in H3 |- *.
  split; [rewrite H4 by lia; exact Hl|].
  split; [lia|]. split; [done|].
  split; [by eexists|].
  intros l' Hl'. by apply H4.
Qed.

Lemma genWhereLikePrefixConditions_args_unchanged_witness :
  DbUtil.cells (snd (DbUtil.genWhereLikePrefixConditions
                       [("firstName", JStr "Ja")] (Some 0) DbUtil.sample_heap)) !! 0 =
    Some [].
Proof.
  assert (Hwf : DbUtil.heap_wf DbUtil.sample_heap).
  { intros l v Hv. unfold DbUtil.sample_heap in Hv. simpl in Hv.
    apply lookup_singleton_Some in Hv as [<- _]. simpl. lia. }
  pose proof (genWhereLikePrefixConditions_args_unchanged [("firstName", JStr "Ja")] 0
                DbUtil.sample_heap [] Hwf eq_refl) as H.
  exact (proj1 H).
Defined.

(** ** Witness of C4 *)

Lemma squelQuery_empty_text_short_circuits_witness :
  SquelAdapter.__DI_squelQuery (fun _ _ _ => Executor.throw type_error)
    (SquelAdapter.mk_squel_query (Some "") None) None Executor.init_st =
  (Executor.Ok (QVArray []), Executor.init_st).
Proof.
  destruct squelQuery_empty_text_short_circuits as [H _].
  apply (H _ (SquelAdapter.mk_squel_query (Some "") None) None Executor.init_st).
  reflexivity.
Defined.

(* ------------------------------------------------------------------ *)
(** ** Name conversion: helper lemmas *)

Section NameConversion.
Local Open Scope string_scope.

Lemma sapp_cons (x : ascii) (a b : string) : String x a ++ b = String x (a ++ b).
Proof. reflexivity. Qed.

Lemma sapp_nil_l (b : string) : "" ++ b = b.
Proof. reflexivity. Qed.

Ltac sapp := rewrite ?sapp_cons, ?sapp_nil_l.

Lemma sapp_assoc (a b c : string) : (a ++ b) ++ c = a ++ (b ++ c).
Proof. induction a as [|x a IH]; sapp; [done|by rewrite IH]. Qed.

Lemma sapp_nil_r (a : string) : a ++ "" = a.
Proof. induction a as [|x a IH]; sapp; [done|by rewrite IH]. Qed.

Lemma slength_app (a b : string) :
  String.length (a ++ b) = String.length a + String.length b.
Proof. induction a as [|x a IH]; sapp; simpl; [done|by rewrite IH]. Qed.

Lemma regex_search_app (p : ascii -> bool) (d r : string) (k : nat) :
  DbUtil.regex_search p (d ++ r) (String.length d + k) =
  option_map (Nat.add (String.length d)) (DbUtil.regex_search p r k).
Proof.
  induction d as [|x d IH]; sapp; simpl.
  - by destruct (DbUtil.regex_search p r k).
  - rewrite IH. by destruct (DbUtil.regex_search p r k).
Qed.

Lemma regex_search_app0 (p : ascii -> bool) (d r : string) :
  DbUtil.regex_search p (d ++ r) (String.length d) =
  option_map (Nat.add (String.length d)) (DbUtil.regex_search p r 0).
Proof. rewrite <- regex_search_app. by rewrite Nat.add_0_r. Qed.

Lemma regex_search_none (p : ascii -> bool) (r : string) :
  DbUtil.regex_search p r 0 = None -> Forall (fun c => p c = false) (list_ascii_of_string r).
Proof.
  induction r as [|x r IH]; simpl; [constructor|].
  destruct (p x) eqn:E; [done|].
  destruct (DbUtil.regex_search p r 0); [done|]. intros _. constructor; auto.
Qed.

Lemma regex_search_some (p : ascii -> bool) (r : string) (k : nat) :
  DbUtil.regex_search p r 0 = Some k ->
  exists t c r', r = t ++ String c r' /\ String.length t = k /\ p c = true /\
    Forall (fun c => p c = false) (list_ascii_of_string t).
Proof.
  revert k. induction r as [|x r IH]; intros k; simpl; [done|].
  destruct (p x) eqn:E.
  - intros [= <-]. exists "", x, r. auto.
  - destruct (DbUtil.regex_search p r 0) as [k'|] eqn:E'; simpl; [|done].
    intros [= <-]. destruct (IH k' eq_refl) as (t & c & r' & -> & <- & Hc & Ht).
    exists (String x t), c, r'. sapp. simpl. repeat split; auto.
Qed.

Lemma get_app (d r : string) (k : nat) :
  String.get (String.length d + k) (d ++ r) = String.get k r.
Proof. induction d as [|x d IH]; sapp; simpl; auto. Qed.

Lemma substring_app (d r : string) :
  substring 0 (String.length d) (d ++ r) = d.
Proof. induction d as [|x d IH]; sapp; simpl; [by destruct r|by rewrite IH]. Qed.

Lemma str_drop_app (d r : string) (k : nat) :
  DbUtil.str_drop (String.length d + k) (d ++ r) = DbUtil.str_drop k r.
Proof. induction d as [|x d IH]; sapp; simpl; auto. Qed.

Lemma get_app0 (d r : string) (c : ascii) :
  String.get (String.length d) (d ++ String c r) = Some c.
Proof. rewrite <- (Nat.add_0_r (String.length d)), get_app. reflexivity. Qed.

Lemma str_drop_app_S (d r : string) (c : ascii) :
  DbUtil.str_drop (S (String.length d)) (d ++ String c r) = r.
Proof. rewrite <- Nat.add_1_r, str_drop_app. reflexivity. Qed.

(* upper-case pass *)

Lemma snake_upper_app (a b : string) :
  DbUtil.snake_upper (a ++ b) = DbUtil.snake_upper a ++ DbUtil.snake_upper b.
Proof.
  induction a as [|x a IH]; sapp; simpl; [done|]. rewrite IH.
  by destruct (DbUtil.is_upper x); sapp.
Qed.

Lemma snake_upper_id (t : string) :
  Forall (fun c => DbUtil.is_upper c = false) (list_ascii_of_string t) ->
  DbUtil.snake_upper t = t.
Proof.
  induction t as [|x t IH]; simpl; [done|]. intros Hf. inversion Hf; subst.
  match goal with H : DbUtil.is_upper x = false |- _ => rewrite H end. by rewrite IH.
Qed.

Lemma upperCaseLoop_spec (n : nat) : forall r d fuel,
  String.length r <= n -> d <> "" -> String.length r < fuel ->
  DbUtil.upperCaseLoop fuel (d ++ r) (String.length d) = d ++ DbUtil.snake_upper r.
Proof.
  induction n as [|n IH]; intros r d fuel Hn Hd Hf;
    (destruct fuel as [|fuel]; [lia|]); simpl; rewrite regex_search_app0;
    (destruct (DbUtil.regex_search DbUtil.is_upper r 0) as [k|] eqn:E; simpl;
     [|by rewrite snake_upper_id by (by apply regex_search_none)]);
    destruct (regex_search_some _ _ _ E) as (t & c & r' & -> & <- & Hc & Ht).
  - rewrite slength_app in Hn. simpl in Hn. lia.
  - unfold DbUtil.spliceInUnderscore.
    destruct (Nat.eqb_spec (String.length d + String.length t) 0).
    { destruct d; [done|simpl in *; lia]. }
    rewrite <- sapp_assoc, <- slength_app, get_app0, substring_app, str_drop_app_S.
    replace ((d ++ t) ++ String "_" (String (DbUtil.toLowerCase c) r'))
      with (((d ++ t) ++ String "_" (String (DbUtil.toLowerCase c) "")) ++ r')
      by (rewrite !sapp_assoc; reflexivity).
    replace (S (S (String.length (d ++ t))))
      with (String.length ((d ++ t) ++ String "_" (String (DbUtil.toLowerCase c) "")))
      by (rewrite !slength_app; simpl; lia).
    rewrite slength_app in Hn, Hf. simpl in Hn, Hf.
    rewrite IH; [|lia|destruct d; [done|sapp; discriminate]|lia].
    rewrite snake_upper_app, (snake_upper_id t Ht). simpl. rewrite Hc.
    rewrite !sapp_assoc. reflexivity.
Qed.

Lemma str_drop_app0 (d r : string) :
  DbUtil.str_drop (String.length d) (d ++ r) = r.
Proof. rewrite <- (Nat.add_0_r (String.length d)), str_drop_app. reflexivity. Qed.

Lemma upperCaseLoop_top (s : string) :
  DbUtil.upperCaseLoop (S (String.length s)) s 0 =
  match s with
  | EmptyString => EmptyString
  | String c rest => String c (DbUtil.snake_upper rest)
  end.
Proof.
  destruct s as [|c rest]; [reflexivity|].
  destruct (DbUtil.is_upper c) eqn:Hc.
  - transitivity (DbUtil.upperCaseLoop (S (String.length rest)) (String c "" ++ rest)
                    (String.length (String c ""))).
    + cbn [DbUtil.upperCaseLoop DbUtil.regex_search]. rewrite Hc. reflexivity.
    + apply upperCaseLoop_spec with (n := String.length rest); [lia|discriminate|lia].
  - transitivity (DbUtil.upperCaseLoop (S (S (String.length rest))) (String c "" ++ rest)
                    (String.length (String c ""))).
    + cbn [DbUtil.upperCaseLoop DbUtil.regex_search]. rewrite Hc. reflexivity.
    + apply upperCaseLoop_spec with (n := String.length rest); [lia|discriminate|lia].
Qed.

(* digit pass *)

Lemma snake_digits_app_nodigit (t X : string) :
  Forall (fun c => DbUtil.is_digit c = false) (list_ascii_of_string t) ->
  DbUtil.snake_digits false (t ++ X) = t ++ DbUtil.snake_digits false X.
Proof.
  induction t as [|x t IH]; intros Ht; sapp; [done|]. inversion Ht; subst. simpl.
  match goal with H : DbUtil.is_digit x = false |- _ => rewrite H end. by rewrite IH.
Qed.

Lemma snake_digits_app_digits (u X : string) :
  Forall (fun c => DbUtil.is_digit c = true) (list_ascii_of_string u) ->
  DbUtil.snake_digits true (u ++ X) = u ++ DbUtil.snake_digits true X.
Proof.
  induction u as [|x u IH]; intros Hu; sapp; [done|]. inversion Hu; subst. simpl.
  match goal with H : DbUtil.is_digit x = true |- _ => rewrite H end. by rewrite IH.
Qed.

Lemma snake_digits_flag (X : string) :
  match X with String c _ => DbUtil.is_digit c = false | EmptyString => True end ->
  DbUtil.snake_digits true X = DbUtil.snake_digits false X.
Proof. destruct X as [|c X]; simpl; [done|]. intros ->. reflexivity. Qed.

Lemma run_length_split (p : ascii -> bool) (s : string) :
  exists u r', s = u ++ r' /\ String.length u = DbUtil.run_length p s /\
    Forall (fun c => p c = true) (list_ascii_of_string u) /\
    match r' with String c _ => p c = false | EmptyString => True end.
Proof.
  induction s as [|x s IH].
  - exists "", "". simpl. auto.
  - simpl. destruct (p x) eqn:Hx.
    + destruct IH as (u & r' & -> & Hl & Hu & Hr).
      exists (String x u), r'. sapp. simpl. auto.
    + exists "", (String x s). simpl. auto.
Qed.

Lemma toLowerCase_digit (c : ascii) : DbUtil.is_digit c = true -> DbUtil.toLowerCase c = c.
Proof.
  unfold DbUtil.toLowerCase, DbUtil.is_upper, DbUtil.is_digit. intros H.
  apply andb_true_iff in H as [H1 H2]. apply Nat.leb_le in H1, H2.
  destruct (Nat.leb 65 (nat_of_ascii c)) eqn:E1; [|done].
  apply Nat.leb_le in E1. lia.
Qed.

Lemma numeralLoop_spec (n : nat) : forall r d fuel,
  String.length r <= n -> d <> "" -> String.length r < fuel ->
  DbUtil.numeralLoop fuel (d ++ r) (String.length d) = d ++ DbUtil.snake_digits false r.
Proof.
  induction n as [|n IH]; intros r d fuel Hn Hd Hf;
    (destruct fuel as [|fuel]; [lia|]); simpl; rewrite regex_search_app0;
    (destruct (DbUtil.regex_search DbUtil.is_digit r 0) as [k|] eqn:E; simpl;
     [|by rewrite <- (sapp_nil_r r) at 2; rewrite snake_digits_app_nodigit, !sapp_nil_r
          by (by apply regex_search_none)]);
    destruct (regex_search_some _ _ _ E) as (t & c & r2 & -> & <- & Hc & Ht).
  - rewrite slength_app in Hn. simpl in Hn. lia.
  - destruct (run_length_split DbUtil.is_digit r2) as (u & r' & -> & Hu & Hud & Hr').
    rewrite <- sapp_assoc, <- slength_app, str_drop_app0. simpl. rewrite Hc, <- Hu.
    unfold DbUtil.spliceInUnderscore.
    destruct (Nat.eqb_spec (String.length (d ++ t)) 0) as [Hz|_].
    { rewrite slength_app in Hz. destruct d; [done|simpl in *; lia]. }
    rewrite get_app0, substring_app, str_drop_app_S, toLowerCase_digit by done.
    replace ((d ++ t) ++ String "_" (String c (u ++ r')))
      with (((d ++ t) ++ String "_" (String c u)) ++ r')
      by (rewrite !sapp_assoc; reflexivity).
    replace (S (String.length (d ++ t) + S (String.length u)))
      with (String.length ((d ++ t) ++ String "_" (String c u)))
      by (rewrite !slength_app; simpl; lia).
    rewrite !slength_app in Hn, Hf. simpl in Hn, Hf. rewrite slength_app in Hn, Hf.
    rewrite IH; [|lia|destruct d; [done|sapp; discriminate]|lia].
    rewrite (snake_digits_app_nodigit t _ Ht). simpl. rewrite Hc.
    rewrite snake_digits_app_digits, snake_digits_flag by done.
    rewrite !sapp_assoc. reflexivity.
Qed.

Lemma numeralLoop_top (s : string) :
  DbUtil.numeralLoop (S (String.length s)) s 0 =
  match s with
  | EmptyString => EmptyString
  | String c rest => String c (DbUtil.snake_digits (DbUtil.is_digit c) rest)
  end.
Proof.
  destruct s as [|c rest]; [reflexivity|].
  destruct (DbUtil.is_digit c) eqn:Hc.
  - destruct (run_length_split DbUtil.is_digit rest) as (u & r' & -> & Hu & Hud & Hr').
    transitivity (DbUtil.numeralLoop (S (String.length (u ++ r'))) (String c u ++ r')
                    (String.length (String c u))).
    + cbn [DbUtil.numeralLoop DbUtil.regex_search]. rewrite Hc.
      cbn [DbUtil.str_drop DbUtil.run_length]. rewrite Hc, <- Hu. reflexivity.
    + rewrite slength_app.
      rewrite (numeralLoop_spec (String.length r') r' (String c u)); [|lia|discriminate|lia].
      rewrite snake_digits_app_digits, snake_digits_flag by done. reflexivity.
  - transitivity (DbUtil.numeralLoop (S (S (String.length rest))) (String c "" ++ rest)
                    (String.length (String c ""))).
    + cbn [DbUtil.numeralLoop DbUtil.regex_search]. rewrite Hc. reflexivity.
    + rewrite (numeralLoop_spec (String.length rest)); [reflexivity|lia|discriminate|lia].
Qed.

Lemma jsName2SqlName_snake_of (s : string) :
  DbUtil.jsName2SqlName s = DbUtil.snake_of s.
Proof.
  unfold DbUtil.jsName2SqlName, DbUtil.snake_of.
  rewrite upperCaseLoop_top. apply numeralLoop_top.
Qed.

(* underscore pass *)

Lemma camel_of_app (t X : string) :
  Forall (fun c => DbUtil.is_underscore c = false) (list_ascii_of_string t) ->
  DbUtil.camel_of (t ++ X) = t ++ DbUtil.camel_of X.
Proof.
  induction t as [|x t IH]; intros Ht; sapp; [done|]. inversion Ht; subst. simpl.
  match goal with H : DbUtil.is_underscore x = false |- _ => rewrite H end. by rewrite IH.
Qed.

Lemma is_underscore_true (c : ascii) : DbUtil.is_underscore c = true -> c = "_"%char.
Proof. unfold DbUtil.is_underscore. by destruct (Ascii.eqb_spec c "_"). Qed.

Lemma underscoreLoop_spec (n : nat) : forall r d wordInitial fuel,
  String.length r <= n -> (forall x, r <> x ++ "_") -> String.length r < fuel ->
  DbUtil.underscoreLoop fuel (d ++ r) (String.length d) wordInitial = d ++ DbUtil.camel_of r.
Proof.
  induction n as [|n IH]; intros r d wI fuel Hn Hend Hf;
    (destruct fuel as [|fuel]; [lia|]); simpl; rewrite regex_search_app0;
    (destruct (DbUtil.regex_search DbUtil.is_underscore r 0) as [k|] eqn:E; simpl;
     [|by rewrite <- (sapp_nil_r r) at 2; rewrite camel_of_app, !sapp_nil_r
          by (by apply regex_search_none)]);
    destruct (regex_search_some _ _ _ E) as (t & c & r2 & -> & <- & Hc & Ht);
    apply is_underscore_true in Hc as ->;
    (destruct r2 as [|c' r']; [by destruct (Hend t)|]).
  - rewrite slength_app in Hn. simpl in Hn. lia.
  - replace (d ++ t ++ String "_" (String c' r'))
      with ((d ++ t) ++ String "_" (String c' r')) by apply sapp_assoc.
    rewrite <- slength_app.
    replace (Nat.ltb (String.length (d ++ t) + 1) (String.length ((d ++ t) ++ String "_" (String c' r'))))
      with true by (symmetry; apply Nat.ltb_lt; rewrite !slength_app; simpl; lia).
    rewrite get_app, substring_app, str_drop_app. simpl.
    rewrite !sapp_assoc, sapp_cons, sapp_nil_l.
    replace (d ++ t ++ String (DbUtil.toUpperCase c') r')
      with (((d ++ t) ++ String (DbUtil.toUpperCase c') "") ++ r')
      by (rewrite !sapp_assoc; reflexivity).
    replace (S (String.length (d ++ t)))
      with (String.length ((d ++ t) ++ String (DbUtil.toUpperCase c') ""))
      by (rewrite slength_app; simpl; lia).
    rewrite !slength_app in Hn, Hf. simpl in Hn, Hf.
    rewrite IH; [|lia| |lia].
    + rewrite (camel_of_app t _ Ht). simpl. rewrite !sapp_assoc. reflexivity.
    + intros x ->. apply (Hend (t ++ String "_" (String c' x))).
      rewrite !sapp_assoc. reflexivity.
Qed.

Lemma sqlName2JsName_camel_of (name : string) :
  (forall x, name <> x ++ "_") -> DbUtil.sqlName2JsName name = DbUtil.camel_of name.
Proof.
  intros Hend. unfold DbUtil.sqlName2JsName.
  transitivity (DbUtil.underscoreLoop (S (String.length name)) ("" ++ name)
                  (String.length "") ""); [reflexivity|].
  rewrite (underscoreLoop_spec (String.length name)); [reflexivity|lia|done|lia].
Qed.

(* the round trip *)

Lemma lower_of_upper (c : ascii) :
  DbUtil.is_upper c = true ->
  DbUtil.is_digit (DbUtil.toLowerCase c) = false /\
  DbUtil.is_underscore (DbUtil.toLowerCase c) = false /\
  DbUtil.toUpperCase (DbUtil.toLowerCase c) = c.
Proof.
  intros H. destruct c as [[] [] [] [] [] [] [] []]; try discriminate H; vm_compute; auto.
Qed.

Lemma digit_facts (c : ascii) :
  DbUtil.is_digit c = true ->
  DbUtil.is_underscore c = false /\ DbUtil.toUpperCase c = c.
Proof.
  intros H. destruct c as [[] [] [] [] [] [] [] []]; try discriminate H; vm_compute; auto.
Qed.

Lemma camel_of_snake (rest : string) : forall b,
  Forall (fun c => DbUtil.is_underscore c = false) (list_ascii_of_string rest) ->
  DbUtil.camel_of (DbUtil.snake_digits b (DbUtil.snake_upper rest)) = rest.
Proof.
  induction rest as [|c rest IH]; intros b Hr; [reflexivity|].
  inversion Hr as [|? ? Hc Hr']; subst. simpl.
  destruct (DbUtil.is_upper c) eqn:Hu.
  - destruct (lower_of_upper c Hu) as (Hd & Hus & Hul). simpl. rewrite Hd. simpl.
    rewrite Hul, IH by done. reflexivity.
  - destruct (DbUtil.is_digit c) eqn:Hd.
    + destruct (digit_facts c Hd) as [_ Hup]. simpl. rewrite Hd.
      destruct b; simpl; rewrite ?Hc, ?Hup, IH by done; reflexivity.
    + simpl. rewrite Hd. simpl. rewrite Hc, IH by done. reflexivity.
Qed.

Lemma cons_eq_app_underscore (a : ascii) (Y x : string) :
  String a Y = x ++ "_" ->
  (a = "_"%char /\ Y = "") \/ (exists x', x = String a x' /\ Y = x' ++ "_").
Proof.
  destruct x as [|a' x]; sapp; intros [= -> ->]; [by left|right; by eexists].
Qed.

Lemma snake_no_trailing_underscore (rest : string) : forall b x,
  Forall (fun c => DbUtil.is_underscore c = false) (list_ascii_of_string rest) ->
  DbUtil.snake_digits b (DbUtil.snake_upper rest) <> x ++ "_".
Proof.
  induction rest as [|c rest IH]; intros b x Hr.
  - destruct x; sapp; discriminate.
  - inversion Hr as [|? ? Hc Hr']; subst. simpl.
    destruct (DbUtil.is_upper c) eqn:Hu.
    + destruct (lower_of_upper c Hu) as (Hd & Hus & _). simpl. rewrite Hd.
      intros [[_ ?]|(x' & _ & Hx)]%cons_eq_app_underscore; [discriminate|].
      apply cons_eq_app_underscore in Hx as [[Hl _]|(x'' & _ & Hx)].
      * rewrite Hl in Hus. discriminate.
      * by apply (IH false x'').
    + assert (Hcase : forall b' Y, String c (DbUtil.snake_digits b' Y) = x ++ "_" ->
                      (exists x', DbUtil.snake_digits b' Y = x' ++ "_")).
      { intros b' Y [[-> _]|(x' & _ & Hx)]%cons_eq_app_underscore; [discriminate|eauto]. }
      destruct (DbUtil.is_digit c) eqn:Hd; [destruct b|]; simpl; rewrite ?Hd.
      * intros (x' & Hx)%Hcase. by apply (IH true x').
      * intros [[_ ?]|(x' & _ & Hx)]%cons_eq_app_underscore; [discriminate|].
        apply cons_eq_app_underscore in Hx as [[-> _]|(x'' & _ & Hx)]; [discriminate|].
        by apply (IH true x'').
      * intros (x' & Hx)%Hcase. by apply (IH false x').
Qed.

Lemma snake_of_no_trailing_underscore (s : string) :
  Forall (fun c => DbUtil.is_underscore c = false) (list_ascii_of_string s) ->
  forall x, DbUtil.snake_of s <> x ++ "_".
Proof.
  intros Hs x. destruct s as [|c rest]; simpl.
  - destruct x; sapp; discriminate.
  - inversion Hs as [|? ? Hc Hr]; subst.
    intros [[-> _]|(x' & _ & Hx)]%cons_eq_app_underscore; [discriminate|].
    by apply (snake_no_trailing_underscore rest (DbUtil.is_digit c) x' Hr).
Qed.

Lemma js_sql_js_roundtrip (name : string) :
  Forall (fun c => DbUtil.is_underscore c = false) (list_ascii_of_string name) ->
  DbUtil.sqlName2JsName (DbUtil.jsName2SqlName name) = name.
Proof.
  intros Hs. rewrite jsName2SqlName_snake_of, sqlName2JsName_camel_of
    by (by apply snake_of_no_trailing_underscore).
  destruct name as [|c rest]; [reflexivity|].
  inversion Hs as [|? ? Hc Hr]; subst. unfold DbUtil.snake_of. simpl. rewrite Hc.
  by rewrite camel_of_snake.
Qed.

Lemma last_char_not_underscore (name : string) :
  String.get (pred (String.length name)) name <> Some "_"%char ->
  forall x, name <> x ++ "_".
Proof.
  intros H x ->. apply H. rewrite slength_app. simpl.
  replace (pred (String.length x + 1)) with (String.length x) by lia.
  apply get_app0.
Qed.

End NameConversion.

(** ** [cleanStringForLike], [columnList2ColumnMap], [convertErrorCodes2Map]:
    helper lemmas *)

Lemma removeAll_list (c : ascii) (s : string) :
  list_ascii_of_string (DbUtil.removeAll c s) =
  List.filter (fun x => negb (Ascii.eqb x c)) (list_ascii_of_string s).
Proof.
  induction s as [|x s IH]; simpl; [done|].
  destruct (Ascii.eqb x c); simpl; by rewrite IH.
Qed.

Lemma list_ascii_inj (s t : string) :
  list_ascii_of_string s = list_ascii_of_string t -> s = t.
Proof.
  intros H. rewrite <- (string_of_list_ascii_of_string s), <- (string_of_list_ascii_of_string t).
  by rewrite H.
Qed.

Lemma cleanStringForLike_chars (s : string) :
  list_ascii_of_string (DbUtil.cleanStringForLike (JStr s)) =
  List.filter DbUtil.like_safe (list_ascii_of_string s).
Proof.
  simpl. rewrite !removeAll_list.
  induction (list_ascii_of_string s) as [|x l IH]; simpl; [done|].
  unfold DbUtil.like_safe at 1.
  destruct (Ascii.eqb x "%"); simpl; [done|].
  destruct (Ascii.eqb x "_"); simpl; [done|]. by rewrite IH.
Qed.

Lemma filter_idem {A} (f : A -> bool) (l : list A) :
  List.filter f (List.filter f l) = List.filter f l.
Proof.
  induction l as [|x l IH]; simpl; [done|].
  destruct (f x) eqn:E; simpl; rewrite ?E; by rewrite IH.
Qed.

Lemma obj_set_string_lookup (x v : string) (m : gmap string string) k :
  DbUtil.obj_set_string x v m !! k =
  if decide (k = x /\ k <> "__proto__"%string) then Some v else m !! k.
Proof.
  unfold DbUtil.obj_set_string.
  destruct (String.eqb_spec x "__proto__") as [->|Hp]; case_decide as Hd.
  - by destruct Hd as [-> Hd].
  - done.
  - destruct Hd as [-> _]. by rewrite lookup_insert_eq.
  - rewrite lookup_insert_ne; [done|]. intros ->. by apply Hd.
Qed.

Lemma columnList2ColumnMap_fold (l : list string) (m : gmap string string) k :
  fold_left (fun result sqlName =>
               DbUtil.obj_set_string sqlName (DbUtil.sqlName2JsName sqlName) result) l m !! k =
  if decide (k ∈ l /\ k <> "__proto__"%string) then Some (DbUtil.sqlName2JsName k) else m !! k.
Proof.
  revert m. induction l as [|x l IH]; intros m; simpl.
  - try (case_decide as Hd; [destruct Hd as [Hd _]; set_solver|]); done.
  - rewrite IH, obj_set_string_lookup.
    destruct (decide (k ∈ l)), (decide (k = x)), (decide (k = "__proto__"%string));
      subst; repeat case_decide; naive_solver (set_solver).
Qed.




(** ** Registry: helper lemma *)

Lemma conn_get_set (name : string) (v : Registry.reg_entry) (s : Registry.reg_state) :
  Registry.conn_get name (Registry.conn_set name v s) = Some v.
Proof.
  unfold Registry.conn_set, Registry.conn_get.
  destruct (Registry.__connections s !! name) eqn:E; simpl; [by rewrite lookup_insert_eq|].
  destruct (String.eqb name "__proto__") eqn:Ep; simpl; [by rewrite E|].
  by rewrite lookup_insert_eq.
Qed.

Lemma reg_inv_register (s : Registry.reg_state) (name : string)
    (config : Registry.connection_config) (d : Registry.connection_details) :
  Registry.reg_inv s -> Registry.connection config = Some d ->
  Registry.__connections s !! name = None ->
  Registry.reg_inv
    (Registry.conn_set name
       (Registry.RegConnection
          (Registry.mk_database_connection name config
             (Some (List.length (Registry.pools s)))))
       (Registry.conn_set name (Registry.RegPool (List.length (Registry.pools s)))
          (Registry.mk_reg_state (Registry.__connections s) (Registry.__connections_proto s)
             (Registry.pools s ++ [(name, d)])))).
Proof.
  intros Hinv Hd Hnone.
  destruct (decide (name = "__proto__"%string)) as [->|Ep].
  - rewrite (conn_set_proto (Registry.RegPool _)) by exact Hnone.
    rewrite conn_set_proto by exact Hnone.
    intros n e He. simpl in He.
    destruct (Hinv n e He) as (dbc & i & d' & -> & Hn & Hp & Hl & Hc).
    exists dbc, i, d'. split_and!; try done. by apply lookup_app_l_Some.
  - rewrite (conn_set_own name (Registry.RegPool _)) by (left; exact Ep).
    rewrite conn_set_own by (left; exact Ep).
    intros n e. simpl. destruct (decide (n = name)) as [->|Hne].
    + rewrite lookup_insert_eq. intros [= <-].
      eexists _, _, d. split_and!; try done.
      by rewrite lookup_app_r, Nat.sub_diag by lia.
    + rewrite !lookup_insert_ne by congruence. intros He.
      destruct (Hinv n e He) as (dbc & i & d' & -> & Hn & Hp & Hl & Hc).
      exists dbc, i, d'. split_and!; try done.
      by apply lookup_app_l_Some.
Qed.

(** ** Executor with a console that does not throw: helper lemmas *)

Lemma non_log_app (a b : list Executor.event) :
  Executor.non_log (a ++ b) = Executor.non_log a ++ Executor.non_log b.
Proof. apply List.filter_app. Qed.

Ltac quiet_contra Hq :=
  match goal with H : Executor.console_throws _ _ = true |- _ => rewrite Hq in H; discriminate end.

Lemma queryWithClient_quiet (drv : Executor.driver) (debug : bool) (queryString : string)
    (args : option (list jval)) (c : Executor.client) (s : Executor.st) :
  Executor.quiet_console drv ->
  let '(o, s') := Executor.__DI_queryWithClient drv debug queryString args c s in
  o = Executor.client_query drv c queryString (default [] args) /\
  Executor.non_log (Executor.st_trace s') =
    Executor.non_log (Executor.st_trace s) ++ [Executor.EvQuery c queryString (default [] args)] /\
  Executor.st_client s' = Executor.st_client s.
Proof.
  intros Hq. destruct s as [tr cl]. unfold Executor.__DI_queryWithClient.
  destruct debug, args as [a|], (Executor.client_query drv c queryString _) eqn:E;
    run_promise; try quiet_contra Hq;
    rewrite ?non_log_app; simpl; rewrite <- ?app_assoc; auto.
Qed.

Lemma simpleQuery_quiet (drv : Executor.driver) (debug : bool) (queryString : string)
    (args : option (list jval)) (tr : list Executor.event) :
  Executor.quiet_console drv ->
  let '(o, s') := Executor.__DI_simpleQuery drv debug queryString args (Executor.mk_st tr None) in
  match Executor.pool_connect drv with
  | Executor.Ok c =>
      o = Executor.client_query drv c queryString (default [] args) /\
      Executor.non_log (Executor.st_trace s') =
        Executor.non_log tr ++ [Executor.EvAcquire c;
                                Executor.EvQuery c queryString (default [] args);
                                Executor.EvRelease c]
  | Executor.Err e =>
      o = Executor.Err e /\ Executor.non_log (Executor.st_trace s') = Executor.non_log tr
  end.
Proof.
  intros Hq. unfold Executor.__DI_simpleQuery.
  destruct (Executor.pool_connect drv) as [c|e] eqn:Hc.
  - destruct debug, args as [a|], (Executor.client_query drv c queryString _) eqn:E;
      run_promise; try quiet_contra Hq;
      rewrite ?non_log_app; simpl; rewrite <- ?app_assoc; auto.
    all: split; [congruence|simpl; reflexivity].
  - destruct debug; run_promise; try quiet_contra Hq;
      rewrite ?non_log_app; simpl; rewrite ?app_nil_r; auto.
Qed.

Lemma query_quiet_outcome (drv : Executor.driver) (debug : bool)
    (queryString : string) (args : option (list jval)) (c : option Executor.client)
    (tr : list Executor.event) :
  Executor.quiet_console drv ->
  fst (Executor.query drv debug queryString args c (Executor.mk_st tr None)) =
  match c with
  | Some cl => Executor.client_query drv cl queryString (default [] args)
  | None =>
      match Executor.pool_connect drv with
      | Executor.Ok c0 => Executor.client_query drv c0 queryString (default [] args)
      | Executor.Err e => Executor.Err e
      end
  end.
Proof.
  intros Hq. destruct c as [cl|].
  - pose proof (queryWithClient_quiet drv debug queryString args cl
                  (Executor.mk_st tr None) Hq) as H.
    simpl. destruct (Executor.__DI_queryWithClient _ _ _ _ _ _). simpl. tauto.
  - pose proof (simpleQuery_quiet drv debug queryString args tr Hq) as H.
    simpl. destruct (Executor.__DI_simpleQuery _ _ _ _ _).
    destruct (Executor.pool_connect drv); simpl; tauto.
Qed.

(* ------------------------------------------------------------------ *)
(** * Further properties of the code *)

(** X1.  [sqlName2JsName] drops every [_] of a name that does not end in
    [_] and upper-cases the character after it ([camel_of]); a [_]
    right after a dropped one is kept as the upper-cased character. *)
Theorem sqlName2JsName_spec (name : string) :
  String.get (pred (String.length name)) name <> Some "_"%char ->
  DbUtil.sqlName2JsName name = DbUtil.camel_of name.
Proof.
  intros H. apply sqlName2JsName_camel_of, last_char_not_underscore, H.
Qed.

(** X2.  [jsName2SqlName] computes [snake_of]: each upper-case letter
    after the first character becomes [_] and its lower-case form, then
    a [_] is put before each run of digits that follows a non-digit. *)
Theorem jsName2SqlName_spec (name : string) :
  DbUtil.jsName2SqlName name = DbUtil.snake_of name.
Proof. apply jsName2SqlName_snake_of. Qed.

(** X3.  For a name without [_], converting to SQL style and back gives
    the name again: [sqlName2JsName (jsName2SqlName name) = name]. *)
Theorem jsName2SqlName_roundtrip (name : string) :
  forallb (fun c => negb (DbUtil.is_underscore c)) (list_ascii_of_string name) = true ->
  DbUtil.sqlName2JsName (DbUtil.jsName2SqlName name) = name.
Proof.
  intros H. apply js_sql_js_roundtrip. apply List.Forall_forall. intros c Hc.
  apply (proj1 (List.forallb_forall _ _)) with (x := c) in H; [|exact Hc].
  by destruct (DbUtil.is_underscore c).
Qed.

(** X4.  [cleanStringForLike] returns [''] for a non-string; on a string
    it keeps exactly the characters other than [%] and [_], in order; so
    cleaning twice is cleaning once. *)
Theorem cleanStringForLike_removes :
  (forall v, (forall s, v <> JStr s) -> DbUtil.cleanStringForLike v = ""%string) /\
  (forall s, list_ascii_of_string (DbUtil.cleanStringForLike (JStr s)) =
             List.filter DbUtil.like_safe (list_ascii_of_string s)) /\
  (forall v, DbUtil.cleanStringForLike (JStr (DbUtil.cleanStringForLike v)) =
             DbUtil.cleanStringForLike v).
Proof.
  split; [|split].
  - intros v Hv. destruct v as [| |b|z|m]; try done. by destruct (Hv m).
  - apply cleanStringForLike_chars.
  - intros v. apply list_ascii_inj. rewrite cleanStringForLike_chars.
    destruct v as [| |b|z|m]; try done.
    rewrite cleanStringForLike_chars. apply filter_idem.
Qed.

(** X5.  [columnList2ColumnMap] maps exactly the names of the list,
    each to its [sqlName2JsName] conversion, except ['__proto__']: the
    assignment [result['__proto__'] = string] reaches the prototype
    setter, which ignores a non-object, so that name is never mapped. *)
Theorem columnList2ColumnMap_lookup (columnList : list string) (k v : string) :
  DbUtil.columnList2ColumnMap columnList !! k = Some v <->
  k ∈ columnList /\ k <> "__proto__"%string /\ v = DbUtil.sqlName2JsName k.
Proof.
  unfold DbUtil.columnList2ColumnMap. rewrite columnList2ColumnMap_fold.
  case_decide as Hd.
  - split; [intros [= <-]; tauto|]. intros (_ & _ & ->). done.
  - rewrite lookup_empty. split; [discriminate|]. intros (Hin & Hp & _). tauto.
Qed.


(** X7.  The registry invariant: every registered name holds a connection
    object of that name whose pool was created for it with its connection
    details.  It holds initially and [getConnection] keeps it; a
    successful call returns a connection object of the requested name,
    and pools are only ever added. *)
Theorem getConnection_registry_invariant :
  Registry.reg_inv Registry.empty_reg_state /\
  forall load cwd name mode configOverride s,
    Registry.reg_inv s ->
    let '(r, s') := Registry.getConnection load cwd name mode configOverride s in
    Registry.reg_inv s' /\
    (forall o, r = Executor.Ok o ->
       exists dbc, o = Some (Registry.RegConnection dbc) /\ Registry.__name dbc = name) /\
    exists fresh, Registry.pools s' = Registry.pools s ++ fresh.
Proof.
  split.
  - intros n e. simpl. by rewrite lookup_empty.
  - intros load cwd name mode configOverride s Hinv.
    unfold Registry.getConnection.
    destruct (Registry.__connections s !! "hasOwnProperty") eqn:Hh.
    { split_and!; [done|discriminate|exists []; by rewrite app_nil_r]. }
    destruct (Registry.__connections s !! name) as [e|] eqn:Hl.
    + split_and!; [done| |exists []; by rewrite app_nil_r].
      intros o [= <-]. unfold Registry.conn_get. rewrite Hl.
      destruct (Hinv name e Hl) as (dbc & i & d & -> & Hn & _).
      eauto.
    + destruct (match configOverride with
                | Some c => Executor.Ok c
                | None => Registry.__loadConnectionConfigFromFile load cwd name
                            (Registry.default_mode mode)
                end) as [config|err];
        [|split_and!; [done|discriminate|exists []; by rewrite app_nil_r]].
      unfold Registry.__startPool.
      destruct (Registry.connection config) as [d|] eqn:Hd;
        [|split_and!; [done|discriminate|exists []; by rewrite app_nil_r]].
      simpl. split_and!.
      * by apply reg_inv_register.
      * intros o [= <-]. rewrite conn_get_set. eauto.
      * unfold Registry.conn_set. simpl. rewrite Hl.
        destruct (String.eqb name "__proto__"); simpl; [rewrite Hl|rewrite lookup_insert_eq];
          simpl; eauto.
Qed.

(** X8.  A failing [getConnection] leaves the registry as it was.  With
    no [hasOwnProperty] connection registered, no registration of [name],
    no override and no loadable configuration file it fails with
    ['Configuration file not found: ' + filename], [filename] being the
    [path.join] of the working directory and the configuration path; with
    a configuration that has no [connection] property it fails with a
    [TypeError]; once a connection named ['hasOwnProperty'] is
    registered, every call fails with a [TypeError]. *)
Theorem getConnection_failure_leaves_registry
    (load : Registry.config_loader) (cwd name : string) (mode : option string)
    (configOverride : option Registry.connection_config) (s : Registry.reg_state) :
  (forall e s', Registry.getConnection load cwd name mode configOverride s =
                (Executor.Err e, s') -> s' = s) /\
  (Registry.__connections s !! "hasOwnProperty" = None ->
   Registry.__connections s !! name = None -> configOverride = None ->
   load (Registry.config_filename cwd name (Registry.default_mode mode)) = None ->
   Registry.getConnection load cwd name mode configOverride s =
   (Executor.Err (mk_error
      ("Configuration file not found: " ++
       Registry.config_filename cwd name (Registry.default_mode mode))%string None), s)) /\
  (forall config,
   Registry.__connections s !! "hasOwnProperty" = None ->
   Registry.__connections s !! name = None ->
   match configOverride with
   | Some c => c = config
   | None => load (Registry.config_filename cwd name (Registry.default_mode mode)) = Some config
   end ->
   Registry.connection config = None ->
   Registry.getConnection load cwd name mode configOverride s =
   (Executor.Err type_error, s)) /\
  (Registry.__connections s !! "hasOwnProperty" <> None ->
   Registry.getConnection load cwd name mode configOverride s =
   (Executor.Err type_error, s)).
Proof.
  unfold Registry.getConnection. split_and!.
  - intros e s'. destruct (Registry.__connections s !! "hasOwnProperty"); [congruence|].
    destruct (Registry.__connections s !! name); [congruence|].
    destruct (match configOverride with
              | Some c => Executor.Ok c
              | None => Registry.__loadConnectionConfigFromFile load cwd name
                          (Registry.default_mode mode)
              end) as [config|err]; [|congruence].
    unfold Registry.__startPool. destruct (Registry.connection config); congruence.
  - intros Hh Hl -> Hload. rewrite Hh, Hl. unfold Registry.__loadConnectionConfigFromFile.
    by rewrite Hload.
  - intros config Hh Hl Hc Hnone. rewrite Hh, Hl.
    destruct configOverride as [c|].
    + subst c. unfold Registry.__startPool. by rewrite Hnone.
    + unfold Registry.__loadConnectionConfigFromFile. rewrite Hc.
      unfold Registry.__startPool. by rewrite Hnone.
  - intros Hh. by destruct (Registry.__connections s !! "hasOwnProperty").
Qed.

(** X9.  With a console that does not throw, [query] settles with the
    driver's outcome: on a given client it issues the statement once,
    with [args] or [[]]; on the managed path it acquires, queries and
    releases one client, or fails with the pool's error having done
    nothing else. *)
Theorem query_settles_as_driver (drv : Executor.driver) (debug : bool)
    (queryString : string) (args : option (list jval)) (tr : list Executor.event) :
  Executor.quiet_console drv ->
  (forall c : Executor.client,
     let '(o, s') := Executor.query drv debug queryString args (Some c)
                       (Executor.mk_st tr None) in
     o = Executor.client_query drv c queryString (default [] args) /\
     Executor.non_log (Executor.st_trace s') =
       Executor.non_log tr ++ [Executor.EvQuery c queryString (default [] args)]) /\
  (let '(o, s') := Executor.query drv debug queryString args None (Executor.mk_st tr None) in
   match Executor.pool_connect drv with
   | Executor.Ok c =>
       o = Executor.client_query drv c queryString (default [] args) /\
       Executor.non_log (Executor.st_trace s') =
         Executor.non_log tr ++ [Executor.EvAcquire c;
                                 Executor.EvQuery c queryString (default [] args);
                                 Executor.EvRelease c]
   | Executor.Err e =>
       o = Executor.Err e /\ Executor.non_log (Executor.st_trace s') = Executor.non_log tr
   end).
Proof.
  intros Hq. split.
  - intros c. pose proof (queryWithClient_quiet drv debug queryString args c
                            (Executor.mk_st tr None) Hq) as H.
    simpl. destruct (Executor.__DI_queryWithClient _ _ _ _ _ _). tauto.
  - apply simpleQuery_quiet, Hq.
Qed.

(** X10.  With a console that does not throw, [queryReturningMany]
    settles with the result's rows ([[]] when the result has none) and
    [queryReturningOne] with the first row ([{}] when there is none);
    errors pass through, and both leave the state [query] leaves. *)
Theorem queryReturning_projects_rows (drv : Executor.driver) (debug : bool)
    (queryString : string) (args : option (list jval)) (c : option Executor.client)
    (tr : list Executor.event) :
  Executor.quiet_console drv ->
  let driver_outcome :=
    match c with
    | Some cl => Executor.client_query drv cl queryString (default [] args)
    | None =>
        match Executor.pool_connect drv with
        | Executor.Ok c0 => Executor.client_query drv c0 queryString (default [] args)
        | Executor.Err e => Executor.Err e
        end
    end in
  let s := Executor.mk_st tr None in
  fst (Executor.queryReturningMany drv debug queryString args c s) =
    match driver_outcome with
    | Executor.Ok r => Executor.Ok (default [] (qr_rows r))
    | Executor.Err e => Executor.Err e
    end /\
  fst (Executor.queryReturningOne drv debug queryString args c s) =
    match driver_outcome with
    | Executor.Ok r =>
        Executor.Ok (match default [] (qr_rows r) with [] => [] | r1 :: _ => r1 end)
    | Executor.Err e => Executor.Err e
    end /\
  snd (Executor.queryReturningMany drv debug queryString args c s) =
    snd (Executor.query drv debug queryString args c s) /\
  snd (Executor.queryReturningOne drv debug queryString args c s) =
    snd (Executor.query drv debug queryString args c s).
Proof.
  intros Hq. simpl.
  pose proof (query_quiet_outcome drv debug queryString args c tr Hq) as H.
  unfold Executor.queryReturningMany, Executor.queryReturningOne,
    Executor.__DI_queryReturningMany, Executor.__DI_queryReturningOne,
    Executor.then_, Executor.ret.
  destruct (Executor.query drv debug queryString args c (Executor.mk_st tr None))
    as [o s'] eqn:E.
  simpl in H. rewrite <- H.
  destruct o as [[[rows|] cmd]|e]; simpl; [destruct rows| |]; auto.
Qed.

(** X11.  [beginTransaction] and [commitTransaction] send [BEGIN] and
    [COMMIT] once on the given client and settle with the driver's
    outcome; [query] on a given client neither acquires nor releases a
    client; [getClient] acquires one client from the pool and releases
    none. *)
Theorem client_operations_keep_lease (drv : Executor.driver) (debug : bool)
    (queryString : string) (args : option (list jval)) (c : Executor.client)
    (s : Executor.st) :
  (let '(o, s') := Executor.beginTransaction drv c s in
   o = Executor.client_query drv c "BEGIN" [] /\
   Executor.st_trace s' = Executor.st_trace s ++ [Executor.EvQuery c "BEGIN" []]) /\
  (let '(o, s') := Executor.commitTransaction drv c s in
   o = Executor.client_query drv c "COMMIT" [] /\
   Executor.st_trace s' = Executor.st_trace s ++ [Executor.EvQuery c "COMMIT" []]) /\
  (let s' := snd (Executor.query drv debug queryString args (Some c) s) in
   Executor.acquired (Executor.st_trace s') = Executor.acquired (Executor.st_trace s) /\
   Executor.released (Executor.st_trace s') = Executor.released (Executor.st_trace s)) /\
  (let '(o, s') := Executor.__DI_getClient drv s in
   o = Executor.pool_connect drv /\
   Executor.acquired (Executor.st_trace s') =
     Executor.acquired (Executor.st_trace s) ++
       match Executor.pool_connect drv with
       | Executor.Ok c' => [c']
       | Executor.Err _ => []
       end /\
   Executor.released (Executor.st_trace s') = Executor.released (Executor.st_trace s)).
Proof.
  destruct s as [tr cl].
  split; [|split; [|split]].
  - unfold Executor.beginTransaction.
    destruct (Executor.client_query drv c "BEGIN" []) eqn:E; run_promise; auto.
  - unfold Executor.commitTransaction.
    destruct (Executor.client_query drv c "COMMIT" []) eqn:E; run_promise; auto.
  - unfold Executor.query, Executor.__DI_queryWithClient.
    destruct debug, args as [a|];
      run_promise; unfold Executor.acquired, Executor.released;
      rewrite ?omap_app; simpl; rewrite ?app_nil_r; auto.
  - unfold Executor.__DI_getClient.
    destruct (Executor.pool_connect drv) eqn:E; run_promise;
      unfold Executor.acquired, Executor.released;
      rewrite ?omap_app; simpl; rewrite ?app_nil_r; auto.
Qed.

(** X12.  [squelQueryReturningMany] and [squelQueryReturningOne] on a
    query without text settle with [[]] and [{}] and touch nothing; on a non-empty
    text they are [queryReturningMany] and [queryReturningOne] on that
    text and its values ([[]] when absent). *)
Theorem squelQueryReturning_wrappers (drv : Executor.driver) (debug : bool)
    (text : option string) (vs : option (list jval)) (c : option Executor.client)
    (s : Executor.st) :
  match text with
  | None => True
  | Some t => t <> ""
  end ->
  SquelAdapter.squelQueryReturningMany drv debug (SquelAdapter.mk_squel_query text vs) c s =
    match text with
    | None => (Executor.Ok [], s)
    | Some t => Executor.queryReturningMany drv debug t (Some (default [] vs)) c s
    end /\
  SquelAdapter.squelQueryReturningOne drv debug (SquelAdapter.mk_squel_query text vs) c s =
    match text with
    | None => (Executor.Ok [], s)
    | Some t => Executor.queryReturningOne drv debug t (Some (default [] vs)) c s
    end.
Proof.
  intros Ht.
  unfold SquelAdapter.squelQueryReturningOne, SquelAdapter.squelQueryReturningMany,
    SquelAdapter.squelQuery, SquelAdapter.__DI_squelQuery,
    Executor.queryReturningMany, Executor.queryReturningOne,
    Executor.__DI_queryReturningMany, Executor.__DI_queryReturningOne; simpl.
  destruct text as [t|]; [|split; reflexivity].
  destruct (String.eqb_spec t "") as [->|_]; [done|].
  unfold Executor.then_, Executor.ret.
  destruct vs as [a|]; simpl;
    [destruct (Executor.query drv debug t (Some a) c s) as [[r|e] s']
    |destruct (Executor.query drv debug t (Some []) c s) as [[r|e] s']];
    split; reflexivity.
Qed.

(** X13.  [runBasicService] calls the injected functions in pipeline
    order, each at most once: validation, sanitization, db-validation,
    query building, then one execution function. *)
Theorem runBasicService_call_order {request user_data pclient squel_param result : Type}
    (config : ServiceRunner.service_config request user_data pclient squel_param)
    (fnOne fnMany : squel_param -> option pclient -> Executor.outcome result) :
  let tr := snd (ServiceRunner.__DI_runBasicService config fnOne fnMany) in
  tr `sublist_of` [ServiceRunner.CallValidate; ServiceRunner.CallSanitize;
                   ServiceRunner.CallDbValidate; ServiceRunner.CallMakeQuery;
                   ServiceRunner.CallQueryOne] \/
  tr `sublist_of` [ServiceRunner.CallValidate; ServiceRunner.CallSanitize;
                   ServiceRunner.CallDbValidate; ServiceRunner.CallMakeQuery;
                   ServiceRunner.CallQueryMany].
Proof.
  destruct config as [ud rq ecm fV fS fD fM mode cc cwd]. simpl.
  unfold ServiceRunner.__DI_runBasicService; simpl.
  destruct mode as [| |b|z|m]; simpl; try (left; apply sublist_nil_l).
  destruct (String.eqb_spec m "one"); [|destruct (String.eqb_spec m "many")];
    try (left; apply sublist_nil_l);
    repeat (case_match; simpl); simplify_eq/=;
    first [left; repeat constructor; fail | right; repeat constructor].
Qed.

(** X14.  In [one] or [many] mode, a [fnValidate] or [fnSanitizeRequest]
    that throws makes [runBasicService] throw synchronously with that
    error, after only those calls.  [fnDbValidate] is called outside any
    [.then]: when it throws, [runBasicService] throws that error
    synchronously; when it returns a value with no callable [then], it
    throws a [TypeError] synchronously; when its promise rejects,
    [runBasicService] rejects with that error; in all three cases neither
    [fnMakeQuery] nor an execution function runs.  A failing
    [fnMakeQuery] makes it reject with that error, and no execution
    function runs. *)
Theorem runBasicService_error_channels {request user_data pclient squel_param result : Type}
    (config : ServiceRunner.service_config request user_data pclient squel_param)
    (fnOne fnMany : squel_param -> option pclient -> Executor.outcome result) :
  ServiceRunner.oneOrMany _ _ _ _ config = JStr "one" \/
  ServiceRunner.oneOrMany _ _ _ _ config = JStr "many" ->
  let run := ServiceRunner.__DI_runBasicService config fnOne fnMany in
  let rq := ServiceRunner.req _ _ _ _ config in
  let ud := ServiceRunner.userData _ _ _ _ config in
  let client := ServiceRunner.service_client _ _ _ _ config in
  (forall e, ServiceRunner.fnValidate _ _ _ _ config rq [] = Executor.Err e ->
     run = (ServiceRunner.SyncThrow e, [ServiceRunner.CallValidate])) /\
  (forall errs f e,
     ServiceRunner.fnValidate _ _ _ _ config rq [] = Executor.Ok (true, errs) ->
     ServiceRunner.fnSanitizeRequest _ _ _ _ config = Some f -> f rq = Executor.Err e ->
     run = (ServiceRunner.SyncThrow e,
            [ServiceRunner.CallValidate; ServiceRunner.CallSanitize])) /\
  (forall errs req' g e,
     ServiceRunner.fnValidate _ _ _ _ config rq [] = Executor.Ok (true, errs) ->
     match ServiceRunner.fnSanitizeRequest _ _ _ _ config with
     | Some f => f rq = Executor.Ok req'
     | None => req' = rq
     end ->
     ServiceRunner.fnDbValidate _ _ _ _ config = Some g ->
     g ud req' client = ServiceRunner.DbThrows e ->
     fst run = ServiceRunner.SyncThrow e /\
     (ServiceRunner.CallMakeQuery ∉ snd run) /\ ServiceRunner.exec_calls (snd run) = []) /\
  (forall errs req' g,
     ServiceRunner.fnValidate _ _ _ _ config rq [] = Executor.Ok (true, errs) ->
     match ServiceRunner.fnSanitizeRequest _ _ _ _ config with
     | Some f => f rq = Executor.Ok req'
     | None => req' = rq
     end ->
     ServiceRunner.fnDbValidate _ _ _ _ config = Some g ->
     g ud req' client = ServiceRunner.DbNotThenable ->
     fst run = ServiceRunner.SyncThrow type_error /\
     (ServiceRunner.CallMakeQuery ∉ snd run) /\ ServiceRunner.exec_calls (snd run) = []) /\
  (forall errs req' g e,
     ServiceRunner.fnValidate _ _ _ _ config rq [] = Executor.Ok (true, errs) ->
     match ServiceRunner.fnSanitizeRequest _ _ _ _ config with
     | Some f => f rq = Executor.Ok req'
     | None => req' = rq
     end ->
     ServiceRunner.fnDbValidate _ _ _ _ config = Some g ->
     g ud req' client = ServiceRunner.DbPromise (Executor.Err e) ->
     fst run = ServiceRunner.Settled (Executor.Err e) /\
     (ServiceRunner.CallMakeQuery ∉ snd run) /\ ServiceRunner.exec_calls (snd run) = []) /\
  (forall errs req' e,
     ServiceRunner.fnValidate _ _ _ _ config rq [] = Executor.Ok (true, errs) ->
     match ServiceRunner.fnSanitizeRequest _ _ _ _ config with
     | Some f => f rq = Executor.Ok req'
     | None => req' = rq
     end ->
     match ServiceRunner.fnDbValidate _ _ _ _ config with
     | Some g => g ud req' client = ServiceRunner.DbPromise (Executor.Ok tt)
     | None => True
     end ->
     ServiceRunner.fnMakeQuery _ _ _ _ config ud req' = Executor.Err e ->
     fst run = ServiceRunner.Settled (Executor.Err e) /\
     ServiceRunner.exec_calls (snd run) = []).
Proof.
  destruct config as [ud rq ecm fV fS fD fM mode cc cwd]. simpl.
  intros Hmode.
  assert (Hsel : exists ev fQ,
    match mode with
    | JStr s =>
        if String.eqb s "one" then Some (ServiceRunner.CallQueryOne, fnOne)
        else if String.eqb s "many" then Some (ServiceRunner.CallQueryMany, fnMany)
        else None
    | _ => None
    end = Some (ev, fQ) /\ (ev = ServiceRunner.CallQueryOne \/ ev = ServiceRunner.CallQueryMany)).
  { destruct Hmode as [->| ->]; simpl; eauto. }
  destruct Hsel as (ev & fQ & Hsel & Hev).
  unfold ServiceRunner.__DI_runBasicService; simpl. rewrite Hsel.
  split_and!.
  - intros e He. by rewrite He.
  - intros errs f e Hv Hs He. by rewrite Hv, Hs, He.
  - intros errs req' g e Hv Hs Hg He. rewrite Hv. subst fD.
    unfold ServiceRunner.service_client in *; simpl in *.
    destruct fS as [f|]; [rewrite Hs|subst req']; rewrite He; simpl;
      (split; [done|split; [set_solver|done]]).
  - intros errs req' g Hv Hs Hg He. rewrite Hv. subst fD.
    unfold ServiceRunner.service_client in *; simpl in *.
    destruct fS as [f|]; [rewrite Hs|subst req']; rewrite He; simpl;
      (split; [done|split; [set_solver|done]]).
  - intros errs req' g e Hv Hs Hg He. rewrite Hv. subst fD.
    unfold ServiceRunner.service_client in *; simpl in *.
    destruct fS as [f|]; [rewrite Hs|subst req']; rewrite He; simpl;
      (split; [done|split; [set_solver|done]]).
  - intros errs req' e Hv Hs Hg He. rewrite Hv.
    unfold ServiceRunner.service_client in *; simpl in *.
    destruct fS as [f|]; [rewrite Hs|subst req'];
      (destruct fD as [g|]; [rewrite Hg|]); rewrite He; simpl; rewrite ?filter_app; auto.
Qed.


(** ** Witnesses of the further properties *)

Lemma sqlName2JsName_spec_witness :
  String.get (pred (String.length "zip_code_5")) "zip_code_5" <> Some "_"%char /\
  DbUtil.sqlName2JsName "zip_code_5" = DbUtil.camel_of "zip_code_5".
Proof.
  split; [vm_compute; intros H; discriminate H|].
  apply sqlName2JsName_spec. vm_compute. intros H; discriminate H.
Defined.

Lemma jsName2SqlName_roundtrip_witness :
  forallb (fun c => negb (DbUtil.is_underscore c)) (list_ascii_of_string "zipCode5") = true /\
  DbUtil.sqlName2JsName (DbUtil.jsName2SqlName "zipCode5") = "zipCode5"%string.
Proof. split; [reflexivity|apply jsName2SqlName_roundtrip; reflexivity]. Defined.

Lemma cleanStringForLike_removes_witness :
  (forall s, JNum 3 <> JStr s) /\ DbUtil.cleanStringForLike (JNum 3) = ""%string.
Proof.
  assert (H : forall s, JNum 3 <> JStr s) by (intros s; discriminate).
  split; [exact H|]. destruct cleanStringForLike_removes as [H1 _]. exact (H1 _ H).
Defined.


Lemma getConnection_registry_invariant_witness :
  Registry.reg_inv Registry.empty_reg_state /\
  let '(r, s') := Registry.getConnection (fun _ => None) "/app" "main" None
                    (Some Registry.sample_config) Registry.empty_reg_state in
  Registry.reg_inv s' /\
  (forall o, r = Executor.Ok o ->
     exists dbc, o = Some (Registry.RegConnection dbc) /\ Registry.__name dbc = "main"%string) /\
  exists fresh, Registry.pools s' = Registry.pools Registry.empty_reg_state ++ fresh.
Proof.
  destruct getConnection_registry_invariant as [H0 H].
  split; [exact H0|]. exact (H (fun _ => None) "/app" "main" None
                               (Some Registry.sample_config) Registry.empty_reg_state H0).
Defined.

Lemma getConnection_failure_leaves_registry_witness :
  Registry.getConnection (fun _ => None) "/" "main" None None Registry.empty_reg_state =
    (Executor.Err (mk_error
        "Configuration file not found: /node_modules/metisoft-databaseUtil/config/main.js"
        None),
     Registry.empty_reg_state) /\
  Registry.getConnection (fun _ => None) "/app" "main" None (Some Registry.bare_config)
    Registry.empty_reg_state = (Executor.Err type_error, Registry.empty_reg_state) /\
  Registry.getConnection (fun _ => None) "/app" "main" None (Some Registry.sample_config)
    (Registry.mk_reg_state {["hasOwnProperty" := Registry.RegPool 0]} None []) =
    (Executor.Err type_error,
     Registry.mk_reg_state {["hasOwnProperty" := Registry.RegPool 0]} None []).
Proof.
  destruct (getConnection_failure_leaves_registry (fun _ => None) "/" "main" None None
              Registry.empty_reg_state) as (_ & H2 & _ & _).
  destruct (getConnection_failure_leaves_registry (fun _ => None) "/app" "main" None
              (Some Registry.bare_config) Registry.empty_reg_state) as (_ & _ & H3 & _).
  destruct (getConnection_failure_leaves_registry (fun _ => None) "/app" "main" None
              (Some Registry.sample_config)
              (Registry.mk_reg_state {["hasOwnProperty" := Registry.RegPool 0]} None []))
    as (_ & _ & _ & H4).
  split_and!.
  - rewrite H2 by reflexivity. vm_compute. reflexivity.
  - apply (H3 Registry.bare_config); reflexivity.
  - apply H4. vm_compute. discriminate.
Defined.

Lemma query_settles_as_driver_witness :
  Executor.quiet_console Executor.sample_driver /\
  let '(o, s') := Executor.query Executor.sample_driver false "SELECT 1" None None
                    (Executor.mk_st [] None) in
  o = Executor.Ok (mk_query_result (Some []) "SELECT") /\
  Executor.non_log (Executor.st_trace s') =
    [Executor.EvAcquire 7; Executor.EvQuery 7 "SELECT 1" []; Executor.EvRelease 7].
Proof.
  assert (Hq : Executor.quiet_console Executor.sample_driver) by (intros m; reflexivity).
  split; [exact Hq|].
  exact (proj2 (query_settles_as_driver Executor.sample_driver false "SELECT 1" None [] Hq)).
Defined.

Lemma queryReturning_projects_rows_witness :
  Executor.quiet_console Executor.sample_driver /\
  fst (Executor.queryReturningMany Executor.sample_driver false "SELECT 1" None None
         (Executor.mk_st [] None)) = Executor.Ok [].
Proof.
  assert (Hq : Executor.quiet_console Executor.sample_driver) by (intros m; reflexivity).
  split; [exact Hq|].
  exact (proj1 (queryReturning_projects_rows Executor.sample_driver false "SELECT 1" None
                  None [] Hq)).
Defined.

Lemma squelQueryReturning_wrappers_witness :
  "SELECT 1"%string <> ""%string /\
  SquelAdapter.squelQueryReturningMany Executor.sample_driver false
    (SquelAdapter.mk_squel_query (Some "SELECT 1") None) None Executor.init_st =
  Executor.queryReturningMany Executor.sample_driver false "SELECT 1" (Some []) None
    Executor.init_st.
Proof.
  assert (Ht : "SELECT 1"%string <> ""%string) by discriminate.
  split; [exact Ht|].
  exact (proj1 (squelQueryReturning_wrappers Executor.sample_driver false (Some "SELECT 1")
                  None None Executor.init_st Ht)).
Defined.

Lemma runBasicService_error_channels_witness :
  ServiceRunner.oneOrMany _ _ _ _ ServiceRunner.failing_query_config = JStr "one" /\
  fst (ServiceRunner.__DI_runBasicService ServiceRunner.failing_query_config
         (fun _ _ => Executor.Ok tt) (fun _ _ => Executor.Ok tt)) =
    ServiceRunner.Settled (Executor.Err (mk_error "BAD_QUERY" None)) /\
  ServiceRunner.exec_calls
    (snd (ServiceRunner.__DI_runBasicService ServiceRunner.failing_query_config
            (fun _ _ => Executor.Ok tt) (fun _ _ => Executor.Ok tt))) = [] /\
  fst (ServiceRunner.__DI_runBasicService
         (ServiceRunner.mk_service_config unit unit unit unit tt tt []
            (fun _ errs => Executor.Ok (true, errs)) None
            (Some (fun _ _ _ => ServiceRunner.DbNotThenable))
            (fun _ _ => Executor.Ok tt) (JStr "many") None None)
         (fun _ _ => Executor.Ok tt) (fun _ _ => Executor.Ok tt)) =
    ServiceRunner.SyncThrow type_error.
Proof.
  assert (Hm : ServiceRunner.oneOrMany _ _ _ _ ServiceRunner.failing_query_config = JStr "one")
    by reflexivity.
  split; [exact Hm|].
  destruct (runBasicService_error_channels ServiceRunner.failing_query_config
              (fun _ _ => Executor.Ok tt) (fun _ _ => Executor.Ok tt) (or_introl Hm))
    as (_ & _ & _ & _ & _ & H6).
  destruct (H6 [] tt (mk_error "BAD_QUERY" None) eq_refl eq_refl I eq_refl) as [Hr He].
  split; [exact Hr|]. split; [exact He|].
  destruct (runBasicService_error_channels
              (ServiceRunner.mk_service_config unit unit unit unit tt tt []
                 (fun _ errs => Executor.Ok (true, errs)) None
                 (Some (fun _ _ _ => ServiceRunner.DbNotThenable))
                 (fun _ _ => Executor.Ok tt) (JStr "many") None None)
              (fun _ _ => Executor.Ok tt) (fun _ _ => Executor.Ok tt)
              (or_intror eq_refl))
    as (_ & _ & _ & H4 & _).
  exact (proj1 (H4 [] tt (fun _ _ _ => ServiceRunner.DbNotThenable) eq_refl eq_refl eq_refl
                  eq_refl)).
Defined.
